(** * Ballot validation pipeline (ballot_service/validator.py)

    A shallow embedding of [BallotValidator]: the four gates, the two text
    extractors, the vote store and the two entry points [validate] and
    [validate_identity], with the properties of the specification stated
    over it.

    Python strings are sequences of Unicode code points; a character is its
    [ord].  The tables of the Python runtime (which code points are decimal
    digits, how case is folded, how a string is upper-cased) are taken as a
    value [U : unicode]; a small concrete table, exact on ASCII and on the
    Greek letters, is used for the examples. *)

From Stdlib Require Import List Arith NArith Bool Lia.
From Stdlib Require Strings.String Strings.Byte.
Import ListNotations String.StringSyntax.

Set Implicit Arguments.

(* ------------------------------------------------------------------ *)
(** * Python strings *)
(* ------------------------------------------------------------------ *)

Definition char := N.
Definition pystr := list char.
Definition bytes := list N.

(** Source literals are UTF-8 text; [u "..."] is the string of code points
    such a literal denotes. *)
Fixpoint utf8_decode (bs : list N) : pystr :=
  match bs with
  | [] => []
  | b0 :: r0 =>
    if (b0 <? 128)%N then b0 :: utf8_decode r0
    else match r0 with
    | [] => [b0]
    | b1 :: r1 =>
      if (b0 <? 224)%N then ((b0 - 192) * 64 + (b1 - 128))%N :: utf8_decode r1
      else match r1 with
      | [] => [b0; b1]
      | b2 :: r2 =>
        if (b0 <? 240)%N
        then ((b0 - 224) * 4096 + (b1 - 128) * 64 + (b2 - 128))%N :: utf8_decode r2
        else match r2 with
        | [] => [b0; b1; b2]
        | b3 :: r3 =>
          ((b0 - 240) * 262144 + (b1 - 128) * 4096 + (b2 - 128) * 64 + (b3 - 128))%N
            :: utf8_decode r3
        end
      end
    end
  end.

Definition u (s : String.string) : pystr :=
  utf8_decode (map Byte.to_N (String.list_byte_of_string s)).

Arguments u s%_string_scope.

(** [s.startswith(p)] and the operator [sub in s]. *)
Fixpoint starts_with (p s : pystr) : bool :=
  match p, s with
  | [], _ => true
  | _ :: _, [] => false
  | a :: p', b :: s' => (a =? b)%N && starts_with p' s'
  end.

Fixpoint contains (sub s : pystr) : bool :=
  starts_with sub s ||
  match s with
  | [] => false
  | _ :: s' => contains sub s'
  end.

(** [sep.join(parts)]. *)
Fixpoint join (sep : pystr) (parts : list pystr) : pystr :=
  match parts with
  | [] => []
  | [p] => p
  | p :: rest => p ++ sep ++ join sep rest
  end.

(** The truth value of a string: the empty string is false. *)
Definition truthy (s : pystr) : bool :=
  match s with [] => false | _ => true end.

Definition Substring (sub s : pystr) : Prop :=
  exists pre post, s = pre ++ sub ++ post.

(* ------------------------------------------------------------------ *)
(** * Unicode tables of the runtime *)
(* ------------------------------------------------------------------ *)

Record unicode := {
  is_digit : char -> bool;            (* regex \d *)
  is_space : char -> bool;            (* regex \s, str.isspace, str.strip *)
  ci_match : char -> char -> bool;    (* literal [p] against [c] under re.IGNORECASE *)
  upper : pystr -> pystr              (* str.upper *)
}.

(** A concrete table: ASCII digits, the white space of [str.isspace], and
    simple case folding of the ASCII and Greek letters. *)
Definition in_range (lo hi c : N) : bool := (lo <=? c)%N && (c <=? hi)%N.

Definition basic_lower (c : char) : char :=
  if in_range 65 90 c then (c + 32)%N
  else if in_range 913 929 c || in_range 931 939 c then (c + 32)%N
  else if (c =? 902)%N then 940%N
  else if in_range 904 906 c then (c + 37)%N
  else if (c =? 908)%N then 972%N
  else if in_range 910 911 c then (c + 63)%N
  else c.

Definition basic_upper (c : char) : char :=
  if in_range 97 122 c then (c - 32)%N
  else if in_range 945 961 c || in_range 963 971 c then (c - 32)%N
  else if (c =? 962)%N then 931%N
  else if (c =? 940)%N then 902%N
  else if in_range 941 943 c then (c - 37)%N
  else if (c =? 972)%N then 908%N
  else if in_range 973 974 c then (c - 63)%N
  else c.

Definition basic_space (c : char) : bool :=
  in_range 9 13 c || in_range 28 32 c || (c =? 133)%N || (c =? 160)%N
  || (c =? 5760)%N || in_range 8192 8202 c || in_range 8232 8233 c
  || (c =? 8239)%N || (c =? 8287)%N || (c =? 12288)%N.

Definition basic : unicode := {|
  is_digit := in_range 48 57;
  is_space := basic_space;
  ci_match := fun p c => (basic_lower c =? basic_lower p)%N;
  upper := map basic_upper
|}.

(* ------------------------------------------------------------------ *)
(** * The regular expressions of the module *)
(* ------------------------------------------------------------------ *)

(** The fragment of [re] the five patterns are written in.  Repetition is
    only ever applied to a single-character class; there is one capture
    group per pattern. *)
Inductive regex :=
| Eps
| Exact (c : char)                  (* an uncased literal *)
| ICase (c : char)                  (* a cased literal, re.IGNORECASE *)
| Class (p : char -> bool)          (* one character of a set *)
| Seq (r1 r2 : regex)
| Alt (r1 r2 : regex)               (* r1|r2, r1 tried first *)
| StarG (p : char -> bool)          (* [p]*, greedy *)
| StarL (p : char -> bool)          (* [p]*?, lazy *)
| Times (n : nat) (p : char -> bool) (* [p]{n} *)
| Group (r : regex)                 (* (r), group 1 *)
| Eos.                              (* $ without re.MULTILINE *)

Definition PlusG (p : char -> bool) : regex := Seq (Class p) (StarG p).
Definition PlusL (p : char -> bool) : regex := Seq (Class p) (StarL p).
Definition Opt (r : regex) : regex := Alt r Eps.

(** A literal word: cased letters fold, everything else is exact. *)
Fixpoint word (cased : char -> bool) (w : pystr) : regex :=
  match w with
  | [] => Eps
  | c :: w' => Seq (if cased c then ICase c else Exact c) (word cased w')
  end.

Definition NL : char := 10%N.

Definition any_but_newline (c : char) : bool := negb (c =? NL)%N.

Section Matcher.

Variable U : unicode.

(** Continuations take the rest of the input and the text of group 1. *)
Definition cont := pystr -> pystr -> option pystr.

Fixpoint star_greedy (p : char -> bool) (s : pystr) (k : pystr -> option pystr)
  : option pystr :=
  match s with
  | c :: s' =>
    if p c then
      match star_greedy p s' k with
      | Some v => Some v
      | None => k s
      end
    else k s
  | [] => k s
  end.

Fixpoint star_lazy (p : char -> bool) (s : pystr) (k : pystr -> option pystr)
  : option pystr :=
  match k s with
  | Some v => Some v
  | None =>
    match s with
    | c :: s' => if p c then star_lazy p s' k else None
    | [] => None
    end
  end.

Fixpoint times (n : nat) (p : char -> bool) (s : pystr) (k : pystr -> option pystr)
  : option pystr :=
  match n with
  | O => k s
  | S n' =>
    match s with
    | c :: s' => if p c then times n' p s' k else None
    | [] => None
    end
  end.

(** Backtracking matcher: [rmatch r s g k] matches [r] at the head of [s]
    with group 1 currently [g] and hands what is left to [k]; alternatives
    are tried in the order of the engine. *)
Fixpoint rmatch (r : regex) (s : pystr) (g : pystr) (k : cont) : option pystr :=
  match r with
  | Eps => k s g
  | Exact c =>
    match s with
    | x :: s' => if (x =? c)%N then k s' g else None
    | [] => None
    end
  | ICase c =>
    match s with
    | x :: s' => if ci_match U c x then k s' g else None
    | [] => None
    end
  | Class p =>
    match s with
    | x :: s' => if p x then k s' g else None
    | [] => None
    end
  | Seq r1 r2 => rmatch r1 s g (fun s1 g1 => rmatch r2 s1 g1 k)
  | Alt r1 r2 =>
    match rmatch r1 s g k with
    | Some v => Some v
    | None => rmatch r2 s g k
    end
  | StarG p => star_greedy p s (fun s' => k s' g)
  | StarL p => star_lazy p s (fun s' => k s' g)
  | Times n p => times n p s (fun s' => k s' g)
  | Group r1 =>
    rmatch r1 s g (fun s' _ => k s' (firstn (length s - length s') s))
  | Eos =>
    match s with
    | [] => k s g
    | [c] => if (c =? NL)%N then k s g else None
    | _ => None
    end
  end.

(** [pattern.search(text)], reduced to [match.group(1)]: the leftmost start
    position at which the pattern matches. *)
Fixpoint search (r : regex) (s : pystr) : option pystr :=
  match rmatch r s [] (fun _ g => Some g) with
  | Some g => Some g
  | None =>
    match s with
    | [] => None
    | _ :: s' => search r s'
    end
  end.

(** What a pattern denotes: [Matches r w rest g g'] when [r] can match the
    word [w] in front of [rest], turning group 1 from [g] into [g']. *)
Fixpoint Matches (r : regex) (w rest g g' : pystr) : Prop :=
  match r with
  | Eps => w = [] /\ g' = g
  | Exact c => w = [c] /\ g' = g
  | ICase c => exists x, w = [x] /\ ci_match U c x = true /\ g' = g
  | Class p => exists x, w = [x] /\ p x = true /\ g' = g
  | Seq r1 r2 =>
    exists w1 w2 g1, w = w1 ++ w2 /\
      Matches r1 w1 (w2 ++ rest) g g1 /\ Matches r2 w2 rest g1 g'
  | Alt r1 r2 => Matches r1 w rest g g' \/ Matches r2 w rest g g'
  | StarG p | StarL p => forallb p w = true /\ g' = g
  | Times n p => length w = n /\ forallb p w = true /\ g' = g
  | Group r1 => (exists g0, Matches r1 w rest g g0) /\ g' = w
  | Eos => w = [] /\ (rest = [] \/ rest = [NL]) /\ g' = g
  end.

(** An occurrence of [r] in [s]: it matches some [w] after the first [n]
    characters and captures [g]. *)
Definition Occurs (r : regex) (s : pystr) (n : nat) (g : pystr) : Prop :=
  exists pre w rest, s = pre ++ w ++ rest /\ length pre = n /\
    Matches r w rest [] g.

End Matcher.

(* ------------------------------------------------------------------ *)
(** * Text extraction: the patterns of [BallotValidator] *)
(* ------------------------------------------------------------------ *)

(** Letters of the pattern literals have case; punctuation and the space
    do not, and are compiled to exact literals. *)
Definition cased (c : char) : bool :=
  negb (basic_lower c =? c)%N || negb (basic_upper c =? c)%N.

Definition lit (w : pystr) : regex := word cased w.

Definition COLON : char := 58%N.
Definition DOT : char := 46%N.
Definition RBRACKET : char := 93%N.

Definition L_AFM : pystr := Eval cbv in u "AFM".
Definition L_AFM_GR : pystr := Eval cbv in u "ΑΦΜ".
Definition L_AFM_DOTTED : pystr := Eval cbv in u "Α.Φ.Μ.".
Definition L_TAX_ID : pystr := Eval cbv in u "Tax ID".
Definition L_VOTE_FOR : pystr := Eval cbv in u "vote for [".
Definition L_PSIFIZO_BRACKET : pystr := Eval cbv in u "ψηφίζω [".
Definition L_PSIFIZO : pystr := Eval cbv in u "ψηφίζω".
Definition L_PSIFIZO_SP : pystr := Eval cbv in u "ψηφίζω ".
Definition L_GIA : pystr := Eval cbv in u "για ".
Definition L_YPER : pystr := Eval cbv in u "υπέρ ".

Section Extraction.

Variable U : unicode.

(** The set [[:\s]] (and [[\s:]]). *)
Definition colon_or_space (c : char) : bool := (c =? COLON)%N || is_space U c.

(** The set [[^.\n]]. *)
Definition not_dot_newline (c : char) : bool :=
  negb ((c =? DOT)%N || (c =? NL)%N).

(** (?:AFM|ΑΦΜ|Α\.Φ\.Μ\.|Tax ID)[:\s]*(\d{9}) *)
Definition AFM_LABEL : regex :=
  Alt (lit L_AFM) (Alt (lit L_AFM_GR) (Alt (lit L_AFM_DOTTED) (lit L_TAX_ID))).

Definition AFM_PATTERN : regex :=
  Seq AFM_LABEL (Seq (StarG colon_or_space) (Group (Times 9 (is_digit U)))).

(** vote for \[(.*?)\] *)
Definition VOTE_CHOICE_PATTERN : regex :=
  Seq (lit L_VOTE_FOR) (Seq (Group (StarL any_but_newline)) (Exact RBRACKET)).

(** ψηφίζω \[(.*?)\] *)
Definition VOTE_CHOICE_PATTERN_GR : regex :=
  Seq (lit L_PSIFIZO_BRACKET) (Seq (Group (StarL any_but_newline)) (Exact RBRACKET)).

(** ψηφίζω[\s:]+([^.\n]+) *)
Definition VOTE_CHOICE_PATTERN_GR_ALT : regex :=
  Seq (lit L_PSIFIZO) (Seq (PlusG colon_or_space) (Group (PlusG not_dot_newline))).

(** ψηφίζω (?:για |υπέρ )?(.+?)(?:\.|$) *)
Definition VOTE_CHOICE_PATTERN_GR_OTI : regex :=
  Seq (lit L_PSIFIZO_SP)
    (Seq (Opt (Alt (lit L_GIA) (lit L_YPER)))
      (Seq (Group (PlusL any_but_newline)) (Alt (Exact DOT) Eos))).

(** [str.strip()]. *)
Fixpoint lstrip (s : pystr) : pystr :=
  match s with
  | c :: s' => if is_space U c then lstrip s' else s
  | [] => []
  end.

Definition rstrip (s : pystr) : pystr := rev (lstrip (rev s)).

Definition strip (s : pystr) : pystr := rstrip (lstrip s).

Definition _extract_afm (text : pystr) : option pystr :=
  match search U AFM_PATTERN text with
  | Some group1 => Some group1
  | None => None
  end.

(** The cascade; [try_oti] is the last strategy, reached when the flexible
    pattern does not match or its candidate fails the sanity check. *)
Definition _extract_vote_choice (text : pystr) : option pystr :=
  match search U VOTE_CHOICE_PATTERN text with
  | Some group1 => Some (strip group1)
  | None =>
  match search U VOTE_CHOICE_PATTERN_GR text with
  | Some group1 => Some (strip group1)
  | None =>
  let try_oti :=
    match search U VOTE_CHOICE_PATTERN_GR_OTI text with
    | Some group1 =>
      let choice := strip group1 in
      if truthy choice && Nat.ltb (length choice) 200 then Some choice else None
    | None => None
    end in
  match search U VOTE_CHOICE_PATTERN_GR_ALT text with
  | Some group1 =>
    let choice := strip group1 in
    if truthy choice && Nat.ltb (length choice) 200 then Some choice else try_oti
  | None => try_oti
  end
  end
  end.

(** ** What the patterns say, in words *)

(** One of the four spellings of the label, letters compared as the
    engine compares them under [re.IGNORECASE]. *)
Definition spelled (pat w : pystr) : Prop :=
  Forall2 (fun p c => if cased p then ci_match U p c = true else c = p) pat w.

Definition afm_label (w : pystr) : Prop :=
  spelled L_AFM w \/ spelled L_AFM_GR w \/ spelled L_AFM_DOTTED w \/
  spelled L_TAX_ID w.

(** [text] has, after its first [n] characters, a label, then any run of
    colons and white space, then the nine digits [d]. *)
Definition afm_at (text : pystr) (n : nat) (d : pystr) : Prop :=
  exists pre label seps post,
    text = pre ++ label ++ seps ++ d ++ post /\ length pre = n /\
    afm_label label /\ forallb colon_or_space seps = true /\
    length d = 9 /\ forallb (is_digit U) d = true.

Definition trimmed (s : pystr) : Prop :=
  (forall c s', s = c :: s' -> is_space U c = false) /\
  (forall c s', s = s' ++ [c] -> is_space U c = false).

(** The candidate of one strategy of the choice cascade: group 1 of the
    leftmost match, stripped. *)
Definition candidate (strategy : regex) (text : pystr) : option pystr :=
  match search U strategy text with
  | Some group1 => Some (strip group1)
  | None => None
  end.

(** The sanity check the two flexible strategies apply. *)
Definition sane (choice : pystr) : Prop := choice <> [] /\ length choice < 200.

End Extraction.

(* ------------------------------------------------------------------ *)
(** * Results, configuration, collaborators *)
(* ------------------------------------------------------------------ *)

Inductive RejectionReason :=
| INVALID_SIGNATURE
| UNKNOWN_SIGNER
| NO_SIGNATURE
| DUPLICATE_FILE
| INVALID_TOKEN
| TOKEN_NOT_FOUND
| AFM_NOT_FOUND
| ALREADY_VOTED
| VOTE_CHOICE_NOT_FOUND
| PDF_READ_ERROR.

Record ValidationResult := {
  success : bool;
  rejection_reason : option RejectionReason;
  message : pystr;
  voter_hash : option pystr;
  vote_choice : option pystr;
  file_hash : option pystr;
  signer_name : option pystr
}.

(** The two ways the module builds a result; fields not named keep their
    dataclass default [None]. *)
Definition rejected (reason : RejectionReason) (msg : pystr) : ValidationResult :=
  {| success := false; rejection_reason := Some reason; message := msg;
     voter_hash := None; vote_choice := None; file_hash := None;
     signer_name := None |}.

Definition accepted (msg : pystr) : ValidationResult :=
  {| success := true; rejection_reason := None; message := msg;
     voter_hash := None; vote_choice := None; file_hash := None;
     signer_name := None |}.

Definition with_voter_hash (h : pystr) (r : ValidationResult) : ValidationResult :=
  {| success := success r; rejection_reason := rejection_reason r;
     message := message r; voter_hash := Some h; vote_choice := vote_choice r;
     file_hash := file_hash r; signer_name := signer_name r |}.

Definition with_file_hash (h : pystr) (r : ValidationResult) : ValidationResult :=
  {| success := success r; rejection_reason := rejection_reason r;
     message := message r; voter_hash := voter_hash r; vote_choice := vote_choice r;
     file_hash := Some h; signer_name := signer_name r |}.

Definition with_signer_name (n : pystr) (r : ValidationResult) : ValidationResult :=
  {| success := success r; rejection_reason := rejection_reason r;
     message := message r; voter_hash := voter_hash r; vote_choice := vote_choice r;
     file_hash := file_hash r; signer_name := Some n |}.

(** A call either returns or raises; an exception is kept as its [str]. *)
Inductive outcome (A : Type) :=
| Returns (a : A)
| Raises (e : pystr).

Arguments Returns {A} a.
Arguments Raises {A} e.

(** config.py, [Settings]. *)
Record Settings := {
  SALT_KEY : pystr;
  ALLOWED_SIGNERS : list pystr;
  DEBUG : bool;
  ALLOW_VOTE_UPDATE : bool
}.

(** A signing certificate, by the attributes [_extract_signer_name] looks
    at: [None] stands for an attribute the object does not have. *)
Record subject_name := {
  subject_human_friendly : option pystr;
  subject_str : pystr
}.

Record certificate := {
  cert_type : pystr;
  human_friendly : option pystr;
  subject : option subject_name;
  has_public_bytes : bool;
  cert_str : pystr
}.

(** An embedded signature, by what [validate_pdf_signature] does with it. *)
Inductive signature :=
| Status (valid intact : bool) (signing_cert : option certificate)
| RaisesSignatureValidationError
| RaisesOther (e : pystr).

(** The libraries the validator calls: pyhanko's reader, pypdf's page
    texts, [hashlib.sha256(..).hexdigest()] and [str.encode]. *)
Record libraries := {
  embedded_signatures : bytes -> outcome (list signature);
  page_texts : bytes -> outcome (list pystr);
  sha256_hexdigest : bytes -> pystr;
  encode_utf8 : pystr -> bytes
}.

(* ------------------------------------------------------------------ *)
(** * The vote table and the database session *)
(* ------------------------------------------------------------------ *)

Module Vote.
Record t := {
  id : N;
  poll_id : pystr;
  voter_hash : pystr;
  file_hash : pystr;       (* unique=True *)
  vote_choice : pystr;
  created_at : N
}.
End Vote.

(** A session: the committed rows of the table, the next autoincrement
    key, and the objects added or deleted since the last commit.  Queries
    do not flush ([autoflush=False]). *)
Record Session := {
  rows : list Vote.t;
  next_id : N;
  pending_new : list Vote.t;
  pending_deleted : list N
}.

Fixpoint str_eqb (a b : pystr) : bool :=
  match a, b with
  | [], [] => true
  | x :: a', y :: b' => (x =? y)%N && str_eqb a' b'
  | _, _ => false
  end.

Definition query_first (p : Vote.t -> bool) (db : Session) : option Vote.t :=
  find p (rows db).

Definition db_add (v : Vote.t) (db : Session) : Session :=
  {| rows := rows db; next_id := next_id db;
     pending_new := pending_new db ++ [v];
     pending_deleted := pending_deleted db |}.

Definition db_delete (v : Vote.t) (db : Session) : Session :=
  {| rows := rows db; next_id := next_id db;
     pending_new := pending_new db;
     pending_deleted := pending_deleted db ++ [Vote.id v] |}.

(** The flush of a commit: INSERTs first, each checked against the unique
    index on [file_hash], then DELETEs. *)
Fixpoint insert_all (new : list Vote.t) (table : list Vote.t) (key : N)
  : outcome (list Vote.t * N) :=
  match new with
  | [] => Returns (table, key)
  | v :: rest =>
    if existsb (fun r => str_eqb (Vote.file_hash r) (Vote.file_hash v)) table
    then Raises (u "IntegrityError: UNIQUE constraint failed: votes.file_hash")
    else
      insert_all rest
        (table ++ [{| Vote.id := key; Vote.poll_id := Vote.poll_id v;
                      Vote.voter_hash := Vote.voter_hash v;
                      Vote.file_hash := Vote.file_hash v;
                      Vote.vote_choice := Vote.vote_choice v;
                      Vote.created_at := Vote.created_at v |}])
        (key + 1)%N
  end.

Definition delete_all (ids : list N) (table : list Vote.t) : list Vote.t :=
  filter (fun r => negb (existsb (N.eqb (Vote.id r)) ids)) table.

(** Calls on the session: state passing with exceptions. *)
Definition db_op (A : Type) := Session -> outcome A * Session.

Definition ret {A} (a : A) : db_op A := fun db => (Returns a, db).

Definition bind {A B} (c : db_op A) (k : A -> db_op B) : db_op B :=
  fun db =>
    match c db with
    | (Returns a, db') => k a db'
    | (Raises e, db') => (Raises e, db')
    end.

Notation "x <- c ;; k" := (bind c (fun x => k))
  (at level 61, c at next level, right associativity).
Notation "c ;;; k" := (bind c (fun _ => k))
  (at level 61, right associativity).

Definition query (p : Vote.t -> bool) : db_op (option Vote.t) :=
  fun db => (Returns (query_first p db), db).

Definition add (v : Vote.t) : db_op unit :=
  fun db => (Returns tt, db_add v db).

Definition delete (v : Vote.t) : db_op unit :=
  fun db => (Returns tt, db_delete v db).

Definition commit : db_op unit :=
  fun db =>
    match insert_all (pending_new db) (rows db) (next_id db) with
    | Raises e => (Raises e, db)
    | Returns (table, key) =>
      (Returns tt,
       {| rows := delete_all (pending_deleted db) table; next_id := key;
          pending_new := []; pending_deleted := [] |})
    end.

(* ------------------------------------------------------------------ *)
(** * BallotValidator *)
(* ------------------------------------------------------------------ *)

Section Validator.

Variable U : unicode.
Variable L : libraries.
Variable settings : Settings.

(** ** Gate 1: the signature and its signer *)

Definition _extract_signer_name (cert : certificate) : pystr :=
  match human_friendly cert with
  | Some name => name
  | None =>
    match subject cert with
    | Some subj =>
      match subject_human_friendly subj with
      | Some name => name
      | None => u "Subject: " ++ subject_str subj
      end
    | None =>
      if has_public_bytes cert then
        (* [cert.subject] raises AttributeError, caught by the handler *)
        u "CertError(" ++ cert_type cert ++ u "): '" ++ cert_type cert
          ++ u "' object has no attribute 'subject'"
      else
        u "CertType(" ++ cert_type cert ++ u "): " ++ firstn 200 (cert_str cert)
    end
  end.

Definition _is_allowed_signer (signer_name : pystr) : bool :=
  let signer_upper := upper U signer_name in
  existsb
    (fun allowed =>
       contains (upper U allowed) signer_upper
       || contains signer_upper (upper U allowed))
    (ALLOWED_SIGNERS settings).

(** The loop over [sig_fields]: [valid_signer] and [found_signers] when it
    ends, or the exception that leaves it. *)
Fixpoint scan_signatures (sig_fields : list signature) (found_signers : list pystr)
  : outcome (option pystr * list pystr) :=
  match sig_fields with
  | [] => Returns (None, found_signers)
  | sig :: rest =>
    match sig with
    | RaisesSignatureValidationError => scan_signatures rest found_signers
    | RaisesOther e => Raises e
    | Status valid intact signing_cert =>
      if valid && intact then
        match signing_cert with
        | Some signer_cert =>
          let signer_name := _extract_signer_name signer_cert in
          let found_signers := found_signers ++ [signer_name] in
          if _is_allowed_signer signer_name
          then Returns (Some signer_name, found_signers)
          else scan_signatures rest found_signers
        | None => scan_signatures rest found_signers
        end
      else scan_signatures rest found_signers
    end
  end.

Definition unknown_signer_message (found_signers : list pystr) : pystr :=
  let found_str :=
    match found_signers with
    | [] => u "None"
    | _ => join (u ", ") found_signers
    end in
  u "PDF signature is not from a recognized government authority. Found: "
    ++ found_str.

(** What the gate answers once the loop is over, or has been left by an
    exception. *)
Definition signature_verdict (scan : outcome (option pystr * list pystr))
  : ValidationResult :=
  match scan with
  | Raises e =>
    rejected INVALID_SIGNATURE (u "Signature verification failed: " ++ e)
  | Returns (valid_signer, found_signers) =>
    let unknown :=
      rejected UNKNOWN_SIGNER (unknown_signer_message found_signers) in
    match valid_signer with
    | Some name =>
      if truthy name
      then with_signer_name name (accepted (u "Valid government signature verified"))
      else unknown
    | None => unknown
    end
  end.

Definition _gate1_verify_signature (pdf_bytes : bytes) : ValidationResult :=
  match embedded_signatures L pdf_bytes with
  | Raises e => rejected INVALID_SIGNATURE (u "Signature verification failed: " ++ e)
  | Returns [] =>
    rejected NO_SIGNATURE (u "PDF does not contain any digital signatures")
  | Returns sig_fields => signature_verdict (scan_signatures sig_fields [])
  end.

(** The signer names of the valid, intact signatures that carry a
    certificate, in document order. *)
Definition candidate_signers (sig_fields : list signature) : list pystr :=
  flat_map
    (fun sig =>
       match sig with
       | Status true true (Some signer_cert) => [_extract_signer_name signer_cert]
       | _ => []
       end)
    sig_fields.

Definition raises_other (sig : signature) : bool :=
  match sig with
  | RaisesOther _ => true
  | _ => false
  end.

(** ** Gate 2: the file hash *)

Definition _calculate_file_hash (pdf_bytes : bytes) : pystr :=
  sha256_hexdigest L pdf_bytes.

Definition _gate2_check_uniqueness (file_hash : pystr) : db_op ValidationResult :=
  existing <- query (fun v => str_eqb (Vote.file_hash v) file_hash) ;;
  match existing with
  | Some _ =>
    ret (with_file_hash file_hash
           (rejected DUPLICATE_FILE (u "This declaration has already been submitted")))
  | None => ret (with_file_hash file_hash (accepted (u "File is unique")))
  end.

(** ** Text of the document *)

Definition _extract_text (pdf_bytes : bytes) : outcome pystr :=
  match page_texts L pdf_bytes with
  | Raises e => Raises e
  | Returns pages => Returns (join [NL] (filter truthy pages))
  end.

(** ** Gate 3: the poll token *)

Definition _gate3_verify_token (text poll_token : pystr) : ValidationResult :=
  if negb (truthy poll_token) then
    rejected INVALID_TOKEN (u "Poll token is required")
  else if DEBUG settings then
    accepted (u "Token check bypassed in debug mode")
  else if negb (contains poll_token text) then
    rejected TOKEN_NOT_FOUND
      (u "Security token not found in declaration. Please generate a new declaration with the correct token.")
  else
    accepted (u "Token verified").

(** ** Gate 4: the voter *)

Definition _hash_voter_id (afm : pystr) : pystr :=
  sha256_hexdigest L (encode_utf8 L (afm ++ SALT_KEY settings)).

Definition afm_not_found : ValidationResult :=
  rejected AFM_NOT_FOUND (u "Could not find AFM/Tax ID in the declaration").

Definition _gate4_verify_identity (text poll_id : pystr) : db_op ValidationResult :=
  match _extract_afm U text with
  | None => ret afm_not_found
  | Some afm =>
    if negb (truthy afm) then ret afm_not_found else
    let voter_hash := _hash_voter_id afm in
    existing_vote <-
      query (fun v => str_eqb (Vote.poll_id v) poll_id
                      && str_eqb (Vote.voter_hash v) voter_hash) ;;
    match existing_vote with
    | Some existing =>
      if ALLOW_VOTE_UPDATE settings then
        delete existing ;;;
        commit ;;;
        ret (with_voter_hash voter_hash
               (accepted (u "Previous vote will be updated")))
      else
        ret (with_voter_hash voter_hash
               (rejected ALREADY_VOTED (u "You have already voted in this poll")))
    | None =>
      ret (with_voter_hash voter_hash (accepted (u "Voter identity verified")))
    end
  end.

(** ** Recording *)

(** [voter_hash] arrives as the optional field of the gate 4 result; the
    column is [nullable=False]. *)
Definition _record_vote (utcnow : N) (poll_id : pystr) (voter_hash : option pystr)
    (file_hash vote_choice : pystr) : db_op Vote.t :=
  match voter_hash with
  | None =>
    fun db =>
      (Raises (u "IntegrityError: NOT NULL constraint failed: votes.voter_hash"), db)
  | Some h =>
    let vote := {| Vote.id := 0; Vote.poll_id := poll_id; Vote.voter_hash := h;
                   Vote.file_hash := file_hash; Vote.vote_choice := vote_choice;
                   Vote.created_at := utcnow |} in
    add vote ;;;
    commit ;;;
    (* refresh: the row as stored, found by its unique file hash *)
    stored <- query (fun v => str_eqb (Vote.file_hash v) file_hash) ;;
    ret (match stored with Some row => row | None => vote end)
  end.

(** ** The two entry points *)

Definition pdf_read_error (e : pystr) : ValidationResult :=
  rejected PDF_READ_ERROR (u "Failed to extract text from PDF: " ++ e).

Definition validate (utcnow : N) (pdf_bytes : bytes) (poll_id poll_token : pystr)
  : db_op ValidationResult :=
  let gate1_result := _gate1_verify_signature pdf_bytes in
  if negb (success gate1_result) then ret gate1_result else
  let file_hash := _calculate_file_hash pdf_bytes in
  gate2_result <- _gate2_check_uniqueness file_hash ;;
  if negb (success gate2_result) then ret gate2_result else
  match _extract_text pdf_bytes with
  | Raises e => ret (pdf_read_error e)
  | Returns text =>
    let gate3_result := _gate3_verify_token text poll_token in
    if negb (success gate3_result) then ret gate3_result else
    gate4_result <- _gate4_verify_identity text poll_id ;;
    if negb (success gate4_result) then ret gate4_result else
    let not_found :=
      rejected VOTE_CHOICE_NOT_FOUND
        (u "Could not find vote choice in declaration. Expected format: 'vote for [OPTION]'") in
    match _extract_vote_choice U text with
    | None => ret not_found
    | Some vote_choice =>
      if negb (truthy vote_choice) then ret not_found else
      let voter_hash := voter_hash gate4_result in
      _record_vote utcnow poll_id voter_hash file_hash vote_choice ;;;
      ret {| success := true; rejection_reason := None;
             message := u "Vote successfully recorded";
             voter_hash := voter_hash;
             vote_choice := Some vote_choice;
             file_hash := Some file_hash;
             signer_name := signer_name gate1_result |}
    end
  end.

Definition validate_identity (pdf_bytes : bytes) : ValidationResult :=
  let gate1_result := _gate1_verify_signature pdf_bytes in
  if negb (success gate1_result) then gate1_result else
  match _extract_text pdf_bytes with
  | Raises e => pdf_read_error e
  | Returns text =>
    match _extract_afm U text with
    | None => afm_not_found
    | Some afm =>
      if negb (truthy afm) then afm_not_found else
      {| success := true; rejection_reason := None;
         message := u "Identity verified successfully";
         voter_hash := Some (_hash_voter_id afm);
         vote_choice := None; file_hash := None;
         signer_name := signer_name gate1_result |}
    end
  end.

(** ** Shapes of a result *)

Definition exclusive (r : ValidationResult) : Prop :=
  (success r = true -> rejection_reason r = None) /\
  (success r = false -> exists reason, rejection_reason r = Some reason).

Definition on_return {A} (P : A -> Prop) (o : outcome A) : Prop :=
  match o with
  | Returns a => P a
  | Raises _ => True
  end.

End Validator.

Arguments u : simpl never.

(* ------------------------------------------------------------------ *)
(** * Sample data for the examples *)
(* ------------------------------------------------------------------ *)

(** Two certificates, one of an allowed signer and one of a stranger. *)
Definition apostille_cert : certificate :=
  {| cert_type := u "Certificate"; human_friendly := Some (u "APOSTILLE");
     subject := None; has_public_bytes := false; cert_str := [] |}.

Definition stranger_cert : certificate :=
  {| cert_type := u "Certificate"; human_friendly := Some (u "Evil CA");
     subject := None; has_public_bytes := false; cert_str := [] |}.

(** The defaults of config.py. *)
Definition default_settings : Settings :=
  {| SALT_KEY := u "CHANGE_ME_IN_PRODUCTION_abc123xyz";
     ALLOWED_SIGNERS :=
       [u "Hellenic Republic"; u "HELLENIC REPUBLIC";
        u "Ministry of Digital Governance"; u "MINISTRY OF DIGITAL GOVERNANCE";
        u "Ελληνική Δημοκρατία"; u "Υπουργείο Ψηφιακής Διακυβέρνησης";
        u "APOSTILLE"];
     DEBUG := false;
     ALLOW_VOTE_UPDATE := false |}.

(** Libraries that read the given signatures and page texts off every
    document; the digest is a stand-in (the identity). *)
Definition reader_of (sigs : list signature) (pages : list pystr) : libraries :=
  {| embedded_signatures := fun _ => Returns sigs;
     page_texts := fun _ => Returns pages;
     sha256_hexdigest := fun b => b;
     encode_utf8 := fun s => s |}.


(** A session on a given table, nothing pending. *)
Definition open_session (table : list Vote.t) (key : N) : Session :=
  {| rows := table; next_id := key; pending_new := []; pending_deleted := [] |}.

(** A deployment that lets a voter replace an earlier vote. *)
Definition update_settings : Settings :=
  {| SALT_KEY := SALT_KEY default_settings;
     ALLOWED_SIGNERS := ALLOWED_SIGNERS default_settings;
     DEBUG := false;
     ALLOW_VOTE_UPDATE := true |}.

(** A signed declaration that carries the token and the tax number but no
    vote phrase. *)
Definition declaration_without_choice : libraries :=
  reader_of [Status true true (Some apostille_cert)]
    [u "Security Token: tok-1"; u "AFM: 123456789"].

(** The vote the same voter cast earlier in the same poll. *)
Definition earlier_vote : Vote.t :=
  {| Vote.id := 1; Vote.poll_id := u "poll-1";
     Vote.voter_hash := u "123456789" ++ SALT_KEY default_settings;
     Vote.file_hash := u "earlier-file";
     Vote.vote_choice := u "Option A";
     Vote.created_at := 0 |}.

(** A complete declaration: token, tax number and vote phrase. *)
Definition complete_declaration : libraries :=
  reader_of [Status true true (Some apostille_cert)]
    [u "I vote for [Option B] in the Community Poll. Security Token: tok-1";
     u "AFM: 123456789"].

(* ------------------------------------------------------------------ *)
(** * What the table is meant to keep *)
(* ------------------------------------------------------------------ *)

(** The pair a voter may hold one row for. *)
Definition vote_key (v : Vote.t) : pystr * pystr :=
  (Vote.poll_id v, Vote.voter_hash v).

(** The filter of gate 4's query. *)
Definition voter_row (poll_id h : pystr) (v : Vote.t) : bool :=
  str_eqb (Vote.poll_id v) poll_id && str_eqb (Vote.voter_hash v) h.

Definition unique_files (table : list Vote.t) : Prop :=
  NoDup (map Vote.file_hash table).

Definition one_vote_each (table : list Vote.t) : Prop :=
  NoDup (map vote_key table).

Definition keys_below (key : N) (table : list Vote.t) : Prop :=
  NoDup (map Vote.id table) /\ forall v, In v table -> (Vote.id v < key)%N.

(** The row [_record_vote] stores. *)
Definition recorded (key : N) (poll_id h file_hash vote_choice : pystr) (utcnow : N)
  : Vote.t :=
  {| Vote.id := key; Vote.poll_id := poll_id; Vote.voter_hash := h;
     Vote.file_hash := file_hash; Vote.vote_choice := vote_choice;
     Vote.created_at := utcnow |}.

(* ------------------------------------------------------------------ *)
(** * A first accepted vote, for the examples *)
(* ------------------------------------------------------------------ *)

Definition sample_result : ValidationResult :=
  {| success := true; rejection_reason := None;
     message := u "Vote successfully recorded";
     voter_hash := Some (u "123456789" ++ SALT_KEY default_settings);
     vote_choice := Some (u "Option B");
     file_hash := Some (u "pdf-1");
     signer_name := Some (u "APOSTILLE") |}.

Definition sample_row : Vote.t :=
  recorded 1 (u "poll-1") (u "123456789" ++ SALT_KEY default_settings)
    (u "pdf-1") (u "Option B") 7.

(** Two declarations behind one reader: the bytes pdf-3 are the declaration
    of another voter, any other bytes the one of [complete_declaration]. *)
Definition two_declarations : libraries :=
  {| embedded_signatures := fun _ => Returns [Status true true (Some apostille_cert)];
     page_texts := fun b =>
       if str_eqb b (u "pdf-3")
       then Returns [u "I vote for [Option A]. Security Token: tok-2";
                     u "Tax ID 987654321"]
       else Returns [u "I vote for [Option B] in the Community Poll. Security Token: tok-1";
                     u "AFM: 123456789"];
     sha256_hexdigest := fun b => b;
     encode_utf8 := fun s => s |}.

Definition other_result : ValidationResult :=
  {| success := true; rejection_reason := None;
     message := u "Vote successfully recorded";
     voter_hash := Some (u "987654321" ++ SALT_KEY default_settings);
     vote_choice := Some (u "Option A");
     file_hash := Some (u "pdf-3");
     signer_name := Some (u "APOSTILLE") |}.

Definition other_row : Vote.t :=
  recorded 2 (u "poll-1") (u "987654321" ++ SALT_KEY default_settings)
    (u "pdf-3") (u "Option A") 8.

(* ------------------------------------------------------------------ *)
(** * main.py and database.py: one request after another *)
(* ------------------------------------------------------------------ *)

(** What [validate_ballot] hands to [validate], with the value the clock
    has when the request is served. *)
Record request := {
  request_utcnow : N;
  request_pdf_bytes : bytes;
  request_poll_id : pystr;
  request_poll_token : pystr
}.

(** [get_db]: the session of a request is closed when the request ends,
    and the next request gets a new one over the same database.  The
    committed rows and the key counter stay; what was pending is dropped. *)
Definition next_session (db : Session) : Session :=
  open_session (rows db) (next_id db).

(** The session the next request finds once [requests] have been served in
    order, each by one run of [validate]. *)
Fixpoint served (U : unicode) (L : libraries) (settings : Settings)
    (requests : list request) (db : Session) : Session :=
  match requests with
  | [] => db
  | q :: rest =>
    served U L settings rest
      (next_session
         (snd (validate U L settings (request_utcnow q) (request_pdf_bytes q)
                 (request_poll_id q) (request_poll_token q) db)))
  end.

(** A request with the declaration of the other voter. *)
Definition other_request : request :=
  {| request_utcnow := 8; request_pdf_bytes := u "pdf-3";
     request_poll_id := u "poll-1"; request_poll_token := u "tok-2" |}.

Section MatcherFacts.

Variable U : unicode.

(** ** The matcher against the denotation *)

Lemma firstn_consumed (w rest : pystr) :
  firstn (length (w ++ rest) - length rest) (w ++ rest) = w.
Proof.
  rewrite length_app.
  replace (length w + length rest - length rest) with (length w + 0) by lia.
  rewrite firstn_app_2. simpl. apply app_nil_r.
Qed.

Lemma star_greedy_sound p s k v :
  star_greedy p s k = Some v ->
  exists w s', s = w ++ s' /\ forallb p w = true /\ k s' = Some v.
Proof.
  revert v. induction s as [|c s IH]; intros v H; simpl in H.
  - exists [], []. auto.
  - destruct (p c) eqn:Hc.
    + destruct (star_greedy p s k) as [v'|] eqn:Hs.
      * inversion H; subst v'.
        destruct (IH v eq_refl) as (w & s' & -> & Hw & Hk).
        exists (c :: w), s'. simpl. rewrite Hc, Hw. auto.
      * exists [], (c :: s). auto.
    + exists [], (c :: s). auto.
Qed.

Lemma star_greedy_complete p s k :
  star_greedy p s k = None ->
  forall w s', s = w ++ s' -> forallb p w = true -> k s' = None.
Proof.
  induction s as [|c s IH]; intros H w s' E Hw; simpl in H.
  - destruct w; [simpl in E; subst s'; exact H | discriminate].
  - destruct w as [|x w]; simpl in E.
    + subst s'. destruct (p c); [destruct (star_greedy p s k)|]; congruence.
    + inversion E; subst x s. simpl in Hw. apply andb_prop in Hw as [Hc Hw].
      rewrite Hc in H.
      destruct (star_greedy p (w ++ s') k) eqn:Hs; [discriminate|].
      eapply IH; eauto.
Qed.

Lemma star_lazy_sound p s k v :
  star_lazy p s k = Some v ->
  exists w s', s = w ++ s' /\ forallb p w = true /\ k s' = Some v.
Proof.
  revert v. induction s as [|c s IH]; intros v H; simpl in H.
  - destruct (k []) eqn:Hk; [|discriminate]. exists [], []. split; [|split]; auto.
    congruence.
  - destruct (k (c :: s)) eqn:Hk.
    + exists [], (c :: s). split; [|split]; auto. congruence.
    + destruct (p c) eqn:Hc; [|discriminate].
      destruct (IH v H) as (w & s' & -> & Hw & Hk').
      exists (c :: w), s'. simpl. rewrite Hc, Hw. auto.
Qed.

Lemma star_lazy_complete p s k :
  star_lazy p s k = None ->
  forall w s', s = w ++ s' -> forallb p w = true -> k s' = None.
Proof.
  induction s as [|c s IH]; intros H w s' E Hw; simpl in H.
  - destruct w; [simpl in E; subst s'|discriminate].
    destruct (k []); congruence.
  - destruct (k (c :: s)) eqn:Hk; [discriminate|].
    destruct w as [|x w]; simpl in E.
    + subst s'. exact Hk.
    + inversion E; subst x s. simpl in Hw. apply andb_prop in Hw as [Hc Hw].
      rewrite Hc in H. eapply IH; eauto.
Qed.

Lemma times_sound n p s k v :
  times n p s k = Some v ->
  exists w s', s = w ++ s' /\ length w = n /\ forallb p w = true /\ k s' = Some v.
Proof.
  revert s. induction n as [|n IH]; intros s H; simpl in H.
  - exists [], s. auto.
  - destruct s as [|c s]; [discriminate|].
    destruct (p c) eqn:Hc; [|discriminate].
    destruct (IH _ H) as (w & s' & -> & Hl & Hw & Hk).
    exists (c :: w), s'. simpl. rewrite Hc, Hw, Hl. auto.
Qed.

Lemma times_complete n p s k :
  times n p s k = None ->
  forall w s', s = w ++ s' -> length w = n -> forallb p w = true -> k s' = None.
Proof.
  revert s. induction n as [|n IH]; intros s H w s' E Hl Hw; simpl in H.
  - destruct w; [simpl in E; subst s'; exact H | discriminate].
  - destruct w as [|x w]; [discriminate|]. simpl in E, Hl, Hw. subst s.
    apply andb_prop in Hw as [Hc Hw]. rewrite Hc in H.
    eapply IH; eauto.
Qed.

Lemma rmatch_sound r : forall s g k v,
  rmatch U r s g k = Some v ->
  exists w s' g', s = w ++ s' /\ Matches U r w s' g g' /\ k s' g' = Some v.
Proof.
  induction r as [|c|c|p|r1 IH1 r2 IH2|r1 IH1 r2 IH2|p|p|n p|r1 IH1|];
    intros s g k v H; simpl in H.
  - exists [], s, g. simpl. auto.
  - destruct s as [|x s]; [discriminate|].
    destruct (N.eqb_spec x c); [subst x|discriminate].
    exists [c], s, g. simpl. auto.
  - destruct s as [|x s]; [discriminate|].
    destruct (ci_match U c x) eqn:Hc; [|discriminate].
    exists [x], s, g. simpl. split; [reflexivity|]. split; [exists x; auto|exact H].
  - destruct s as [|x s]; [discriminate|].
    destruct (p x) eqn:Hc; [|discriminate].
    exists [x], s, g. simpl. split; [reflexivity|]. split; [exists x; auto|exact H].
  - apply IH1 in H as (w1 & s1 & g1 & -> & M1 & H).
    apply IH2 in H as (w2 & s2 & g2 & -> & M2 & H).
    exists (w1 ++ w2), s2, g2. rewrite <- app_assoc. simpl.
    split; [reflexivity|]. split; [|exact H].
    exists w1, w2, g1. auto.
  - destruct (rmatch U r1 s g k) as [v1|] eqn:H1.
    + inversion H; subst v1.
      apply IH1 in H1 as (w & s' & g' & E & M & Hk).
      exists w, s', g'. simpl. auto.
    + apply IH2 in H as (w & s' & g' & E & M & Hk).
      exists w, s', g'. simpl. auto.
  - apply star_greedy_sound in H as (w & s' & E & Hw & Hk).
    exists w, s', g. simpl. auto.
  - apply star_lazy_sound in H as (w & s' & E & Hw & Hk).
    exists w, s', g. simpl. auto.
  - apply times_sound in H as (w & s' & E & Hl & Hw & Hk).
    exists w, s', g. simpl. auto.
  - apply IH1 in H as (w & s' & g0 & -> & M & Hk).
    rewrite firstn_consumed in Hk.
    exists w, s', w. simpl. eauto.
  - destruct s as [|c [|c' s]].
    + exists [], [], g. simpl. intuition auto.
    + destruct (N.eqb_spec c NL); [subst c|discriminate].
      exists [], [NL], g. simpl. intuition auto.
    + discriminate.
Qed.

Lemma rmatch_complete r : forall s g k,
  rmatch U r s g k = None ->
  forall w s' g', s = w ++ s' -> Matches U r w s' g g' -> k s' g' = None.
Proof.
  induction r as [|c|c|p|r1 IH1 r2 IH2|r1 IH1 r2 IH2|p|p|n p|r1 IH1|];
    intros s g k H w s' g' E M; simpl in H, M.
  - destruct M as [-> ->]. simpl in E. subst s'. exact H.
  - destruct M as [-> ->]. simpl in E. subst s.
    rewrite N.eqb_refl in H. exact H.
  - destruct M as (x & -> & Hc & ->). simpl in E. subst s.
    rewrite Hc in H. exact H.
  - destruct M as (x & -> & Hc & ->). simpl in E. subst s.
    rewrite Hc in H. exact H.
  - destruct M as (w1 & w2 & g1 & -> & M1 & M2).
    rewrite <- app_assoc in E.
    pose proof (IH1 _ _ _ H _ _ _ E M1) as H2. simpl in H2.
    eapply IH2; eauto.
  - destruct (rmatch U r1 s g k) eqn:H1; [discriminate|].
    destruct M as [M|M]; [eapply IH1|eapply IH2]; eauto.
  - destruct M as [Hw ->].
    exact (@star_greedy_complete p s (fun s' => k s' g) H w s' E Hw).
  - destruct M as [Hw ->].
    exact (@star_lazy_complete p s (fun s' => k s' g) H w s' E Hw).
  - destruct M as (Hl & Hw & ->).
    exact (@times_complete n p s (fun s' => k s' g) H w s' E Hl Hw).
  - destruct M as [[g0 M] ->].
    pose proof (IH1 _ _ _ H _ _ _ E M) as H2. simpl in H2.
    subst s. rewrite firstn_consumed in H2. exact H2.
  - destruct M as (-> & Hr & ->). simpl in E. subst s'.
    destruct Hr as [->| ->]; [exact H|]. simpl in H. exact H.
Qed.

Lemma rmatch_at_sound r s g :
  rmatch U r s [] (fun _ g => Some g) = Some g -> Occurs U r s 0 g.
Proof.
  intros H. apply rmatch_sound in H as (w & s' & g' & -> & M & Hk).
  inversion Hk; subst g'. exists [], w, s'. auto.
Qed.

Lemma rmatch_at_complete r s :
  rmatch U r s [] (fun _ g => Some g) = None -> forall g, ~ Occurs U r s 0 g.
Proof.
  intros H g (pre & w & rest & E & Hl & M).
  destruct pre; [|discriminate]. simpl in E.
  pose proof (@rmatch_complete _ _ _ _ H _ _ _ E M). discriminate.
Qed.

Lemma Occurs_cons r c s n g : Occurs U r s n g -> Occurs U r (c :: s) (S n) g.
Proof.
  intros (pre & w & rest & -> & Hl & M).
  exists (c :: pre), w, rest. simpl. auto.
Qed.

Lemma Occurs_tail r c s n g : Occurs U r (c :: s) (S n) g -> Occurs U r s n g.
Proof.
  intros (pre & w & rest & E & Hl & M).
  destruct pre as [|x pre]; [discriminate|].
  simpl in E, Hl. inversion E; subst. exists pre, w, rest. auto.
Qed.

(** [search] returns the capture of a leftmost occurrence, and nothing only
    when the pattern occurs nowhere. *)
Lemma search_some r s g :
  search U r s = Some g ->
  exists n, Occurs U r s n g /\ forall m g', Occurs U r s m g' -> n <= m.
Proof.
  induction s as [|c s IH]; simpl.
  - destruct (rmatch U r [] [] (fun _ g0 => Some g0)) as [g0|] eqn:H0;
      [|discriminate].
    intros E; inversion E; subst g0.
    exists 0. split; [apply rmatch_at_sound; exact H0 | intros; lia].
  - destruct (rmatch U r (c :: s) [] (fun _ g0 => Some g0)) as [g0|] eqn:H0.
    + intros E; inversion E; subst g0.
      exists 0. split; [apply rmatch_at_sound; exact H0 | intros; lia].
    + intros E. destruct (IH E) as (n & Ho & Hmin).
      exists (S n). split; [apply Occurs_cons; exact Ho|].
      intros [|m] g' Hm.
      * exfalso. eapply rmatch_at_complete; eassumption.
      * apply Occurs_tail in Hm. apply Hmin in Hm. lia.
Qed.

Lemma search_none r s :
  search U r s = None -> forall n g, ~ Occurs U r s n g.
Proof.
  induction s as [|c s IH]; simpl.
  - destruct (rmatch U r [] [] (fun _ g0 => Some g0)) eqn:H0; [discriminate|].
    intros _ n g Ho. destruct Ho as (pre & w & rest & E & Hl & M).
    destruct pre; [|discriminate].
    eapply rmatch_at_complete; [exact H0|]. exists [], w, rest. subst n; eauto.
  - destruct (rmatch U r (c :: s) [] (fun _ g0 => Some g0)) eqn:H0; [discriminate|].
    intros E [|n] g Ho.
    + eapply rmatch_at_complete; eassumption.
    + apply Occurs_tail in Ho. exact (IH E _ _ Ho).
Qed.

Lemma search_at_head r s g :
  rmatch U r s [] (fun _ g => Some g) = Some g -> search U r s = Some g.
Proof. intros H. destruct s; simpl; rewrite H; reflexivity. Qed.

Lemma search_occurs r s n g :
  Occurs U r s n g -> exists g', search U r s = Some g'.
Proof.
  intros Ho. destruct (search U r s) eqn:E; [eauto|].
  exfalso. eapply search_none; eassumption.
Qed.

End MatcherFacts.

(* ------------------------------------------------------------------ *)
(** * Substrings and trimming *)
(* ------------------------------------------------------------------ *)

Lemma starts_with_spec p : forall s,
  starts_with p s = true <-> exists post, s = p ++ post.
Proof.
  induction p as [|a p IH]; intros s; simpl.
  - split; [exists s; reflexivity | reflexivity].
  - destruct s as [|b s].
    + split; [discriminate | intros [post E]; discriminate].
    + rewrite andb_true_iff, N.eqb_eq, IH. split.
      * intros [-> [post ->]]. exists post. reflexivity.
      * intros [post E]. inversion E; subst. eauto.
Qed.

Lemma contains_spec sub : forall s,
  contains sub s = true <-> Substring sub s.
Proof.
  unfold Substring. induction s as [|c s IH]; simpl contains.
  - rewrite orb_false_r, starts_with_spec. split.
    + intros [post E]. exists [], post. exact E.
    + intros (pre & post & E). destruct pre; [|discriminate]. eauto.
  - rewrite orb_true_iff, starts_with_spec, IH. split.
    + intros [[post E]|(pre & post & E)].
      * exists [], post. exact E.
      * exists (c :: pre), post. simpl. congruence.
    + intros ([|x pre] & post & E).
      * left. exists post. exact E.
      * right. inversion E; subst. eauto.
Qed.

Lemma str_eqb_eq a : forall b, str_eqb a b = true <-> a = b.
Proof.
  induction a as [|x a IH]; intros [|y b]; simpl; try (split; congruence).
  rewrite andb_true_iff, N.eqb_eq, IH. split; [intros [-> ->]|intros E; inversion E]; auto.
Qed.

Lemma str_eqb_refl (a : pystr) : str_eqb a a = true.
Proof. apply str_eqb_eq. reflexivity. Qed.

Lemma str_eqb_neq (a b : pystr) : str_eqb a b = false <-> a <> b.
Proof.
  split.
  - intros H E. apply str_eqb_eq in E. congruence.
  - intros H. destruct (str_eqb a b) eqn:E; [|reflexivity].
    apply str_eqb_eq in E. contradiction.
Qed.

Lemma substring_of_join sep name : forall parts,
  In name parts -> Substring name (join sep parts).
Proof.
  induction parts as [|p parts IH]; [intros []|].
  intros [->|Hin].
  - destruct parts as [|q parts]; simpl.
    + exists [], []. rewrite app_nil_r. reflexivity.
    + exists [], (sep ++ join sep (q :: parts)). reflexivity.
  - destruct parts as [|q parts]; [destruct Hin|].
    destruct (IH Hin) as (pre & post & E).
    exists (p ++ sep ++ pre), post.
    change (join sep (p :: q :: parts)) with (p ++ sep ++ join sep (q :: parts)).
    rewrite E. rewrite <- !app_assoc. reflexivity.
Qed.

Section Trimming.

Variable U : unicode.

Lemma lstrip_head s : forall c s',
  lstrip U s = c :: s' -> is_space U c = false.
Proof.
  induction s as [|x s IH]; simpl; intros c s' E; [discriminate|].
  destruct (is_space U x) eqn:Hx; [eauto|].
  inversion E; subst. exact Hx.
Qed.

Lemma lstrip_suffix s : exists pre, s = pre ++ lstrip U s.
Proof.
  induction s as [|x s [pre IH]]; simpl.
  - exists []. reflexivity.
  - destruct (is_space U x).
    + exists (x :: pre). simpl. congruence.
    + exists []. reflexivity.
Qed.

Lemma rstrip_prefix s : exists post, s = rstrip U s ++ post.
Proof.
  unfold rstrip. destruct (lstrip_suffix (rev s)) as [pre E].
  exists (rev pre).
  rewrite <- rev_app_distr, <- E, rev_involutive. reflexivity.
Qed.

Lemma rstrip_last s : forall c s',
  rstrip U s = s' ++ [c] -> is_space U c = false.
Proof.
  unfold rstrip. intros c s' E.
  apply (f_equal (@rev char)) in E.
  rewrite rev_involutive, rev_app_distr in E. simpl in E.
  eapply lstrip_head; eauto.
Qed.

Lemma strip_trimmed s : trimmed U (strip U s).
Proof.
  unfold strip. split.
  - intros c s' E.
    destruct (rstrip_prefix (lstrip U s)) as [post Ep].
    rewrite E in Ep. simpl in Ep.
    eapply lstrip_head; eauto.
  - intros c s' E. eapply rstrip_last; eauto.
Qed.

End Trimming.

(* ------------------------------------------------------------------ *)
(** * The identity pattern *)
(* ------------------------------------------------------------------ *)

Section AfmFacts.

Variable U : unicode.

Lemma lit_matches pat : forall w rest g g',
  Matches U (lit pat) w rest g g' <-> spelled U pat w /\ g' = g.
Proof.
  unfold lit, spelled.
  induction pat as [|p pat IH]; intros w rest g g'; cbn [word Matches].
  - split.
    + intros [-> ->]. split; [constructor | reflexivity].
    + intros [H ->]. inversion H. auto.
  - split.
    + intros (w1 & w2 & g1 & -> & M1 & M2).
      apply IH in M2 as [H2 ->].
      destruct (cased p) eqn:Hp; cbn [Matches] in M1.
      * destruct M1 as (x & -> & Hx & ->). split; [|reflexivity].
        constructor; [rewrite Hp; exact Hx | exact H2].
      * destruct M1 as [-> ->]. split; [|reflexivity].
        constructor; [rewrite Hp; reflexivity | exact H2].
    + intros [H ->]. inversion H as [|p' x pat' w' Hx Hw]; subst.
      exists [x], w', g. split; [reflexivity|]. split.
      * destruct (cased p); cbn [Matches].
        -- exists x. auto.
        -- subst x. auto.
      * apply IH. auto.
Qed.

Lemma label_matches w rest g g' :
  Matches U AFM_LABEL w rest g g' <-> afm_label U w /\ g' = g.
Proof.
  unfold AFM_LABEL, afm_label. cbn [Matches]. rewrite !lit_matches. tauto.
Qed.

Lemma afm_pattern_matches w rest d :
  Matches U (AFM_PATTERN U) w rest [] d <->
  exists label seps,
    w = label ++ seps ++ d /\ afm_label U label /\
    forallb (colon_or_space U) seps = true /\
    length d = 9 /\ forallb (is_digit U) d = true.
Proof.
  unfold AFM_PATTERN. cbn [Matches]. split.
  - intros (w1 & w2 & g1 & -> & M1 & w3 & w4 & g2 & -> & [Hs ->] & [g0 (Hl & Hd & _)] & ->).
    apply label_matches in M1 as [Hlab _].
    exists w1, w3. auto.
  - intros (label & seps & -> & Hlab & Hs & Hl & Hd).
    exists label, (seps ++ d), []. split; [reflexivity|]. split.
    + apply label_matches. auto.
    + exists seps, d, []. split; [reflexivity|]. split; [auto|].
      split; [|reflexivity]. exists []. auto.
Qed.

Lemma afm_occurs text n d :
  Occurs U (AFM_PATTERN U) text n d <-> afm_at U text n d.
Proof.
  unfold Occurs, afm_at. split.
  - intros (pre & w & rest & -> & Hn & M).
    apply afm_pattern_matches in M as (label & seps & -> & H).
    exists pre, label, seps, rest. rewrite <- !app_assoc. tauto.
  - intros (pre & label & seps & post & -> & Hn & H).
    exists pre, (label ++ seps ++ d), post. rewrite <- !app_assoc.
    split; [reflexivity|]. split; [exact Hn|].
    apply afm_pattern_matches. exists label, seps. tauto.
Qed.

Lemma extract_afm_search text : _extract_afm U text = search U (AFM_PATTERN U) text.
Proof. unfold _extract_afm. destruct (search U (AFM_PATTERN U) text); reflexivity. Qed.

(** No occurrence, no identity. *)
Lemma extract_afm_none text :
  (forall n d, ~ afm_at U text n d) -> _extract_afm U text = None.
Proof.
  intros H. rewrite extract_afm_search.
  destruct (search U (AFM_PATTERN U) text) as [d|] eqn:E; [|reflexivity].
  destruct (search_some _ _ _ E) as (n & Ho & _).
  apply afm_occurs in Ho. destruct (H _ _ Ho).
Qed.

(** An occurrence always yields some identity. *)
Lemma extract_afm_some text n d :
  afm_at U text n d -> exists d', _extract_afm U text = Some d'.
Proof.
  intros H. rewrite extract_afm_search.
  apply afm_occurs in H. eapply search_occurs; eauto.
Qed.

(** When every occurrence in the text carries the same nine digits, those
    are the digits returned. *)
Lemma extract_afm_only text n d :
  afm_at U text n d ->
  (forall m d', afm_at U text m d' -> d' = d) ->
  _extract_afm U text = Some d.
Proof.
  intros H Huniq. destruct (extract_afm_some H) as [d' E].
  rewrite E. f_equal. rewrite extract_afm_search in E.
  destruct (search_some _ _ _ E) as (n0 & Ho & _).
  apply afm_occurs in Ho. eauto.
Qed.

End AfmFacts.

(* ------------------------------------------------------------------ *)
(** * Identity extraction (C5, C9) *)
(* ------------------------------------------------------------------ *)

(** C5 (as amended).  [_extract_afm] returns nine digits exactly when the
    text has a label variant (AFM, ΑΦΜ, Α.Φ.Μ., Tax ID, letters compared
    case-insensitively) followed, after any run of colons and white space,
    by at least nine digits; what it returns are the nine digits of the
    leftmost such occurrence.  When no label is followed by nine digits it
    returns none. *)
Theorem extract_afm_leftmost (U : unicode) (text : pystr) :
  match _extract_afm U text with
  | Some d =>
    exists n, afm_at U text n d /\ forall m d', afm_at U text m d' -> n <= m
  | None => forall n d, ~ afm_at U text n d
  end.
Proof.
  rewrite extract_afm_search.
  destruct (search U (AFM_PATTERN U) text) as [d|] eqn:E.
  - destruct (search_some _ _ _ E) as (n & Ho & Hmin).
    exists n. split; [apply afm_occurs; exact Ho|].
    intros m d' Hm. apply afm_occurs in Hm. eauto.
  - intros n d H. apply afm_occurs in H.
    eapply search_none; eassumption.
Qed.

(** C5, the claim as stated fails: this text contains the label AFM
    immediately followed by exactly the nine digits 123456789 (and then
    nothing), yet the digits returned are 987654321, the first nine of the
    ten that follow an earlier label. *)
Lemma extract_afm_not_those_digits :
  let text := u "AFM9876543210 AFM123456789" in
  text = u "AFM9876543210 " ++ L_AFM ++ u "123456789" ++ [] /\
  afm_label basic L_AFM /\
  forallb (is_digit basic) (u "123456789") = true /\
  _extract_afm basic text = Some (u "987654321") /\
  _extract_afm basic text <> Some (u "123456789").
Proof.
  cbv zeta. split; [reflexivity|].
  split; [left; vm_compute; repeat constructor|].
  split; [reflexivity|]. split; [vm_compute; reflexivity|].
  vm_compute. discriminate.
Qed.

Lemma basic_digit_not_separator (c : char) :
  is_digit basic c = true -> colon_or_space basic c = false.
Proof.
  unfold colon_or_space, COLON. simpl. unfold basic_space, in_range.
  intros H. apply not_true_is_false. intros Hc.
  rewrite ?orb_true_iff, ?andb_true_iff, ?N.eqb_eq, ?N.leb_le in *.
  lia.
Qed.

Lemma basic_ci_match_refl (c : char) : ci_match basic c c = true.
Proof. simpl. apply N.eqb_refl. Qed.

Lemma lit_rmatch_self (w : pystr) : forall s g k,
  rmatch basic (lit w) (w ++ s) g k = k s g.
Proof.
  unfold lit. induction w as [|c w IH]; intros s g k; [reflexivity|].
  cbn [word app]. destruct (cased c); cbn [rmatch].
  - rewrite basic_ci_match_refl. apply IH.
  - rewrite N.eqb_refl. apply IH.
Qed.

Lemma times_exact (p : char -> bool) (d : pystr) : forall s k,
  forallb p d = true -> times (length d) p (d ++ s) k = k s.
Proof.
  induction d as [|c d IH]; intros s k H; [reflexivity|].
  simpl in H. apply andb_prop in H as [Hc Hd].
  cbn [length app times]. rewrite Hc. auto.
Qed.

(** C9.  Nothing is required after the ninth digit: for the label AFM
    directly followed by nine digits [d] and then anything at all, further
    digits included, the nine digits [d] are returned. *)
Theorem extract_afm_no_boundary (d more : pystr) :
  length d = 9 -> forallb (is_digit basic) d = true ->
  _extract_afm basic (L_AFM ++ d ++ more) = Some d.
Proof.
  intros Hl Hd. rewrite extract_afm_search.
  assert (Hm : rmatch basic (AFM_PATTERN basic) (L_AFM ++ d ++ more) []
                 (fun _ g => Some g) = Some d).
  { unfold AFM_PATTERN, AFM_LABEL. cbn [rmatch].
    rewrite lit_rmatch_self.
    match goal with
    | |- match ?X with _ => _ end = _ => assert (Hs : X = Some d)
    end.
    { destruct d as [|c d']; [discriminate|].
      pose proof Hd as Hd'. simpl in Hd'. apply andb_prop in Hd' as [Hc _].
      cbn [app star_greedy]. rewrite (basic_digit_not_separator _ Hc).
      change (c :: d' ++ more) with ((c :: d') ++ more).
      rewrite <- Hl at 1. rewrite times_exact by exact Hd.
      rewrite firstn_consumed. reflexivity. }
    rewrite Hs. reflexivity. }
  apply search_at_head. exact Hm.
Qed.

Lemma extract_afm_no_boundary_witness :
  _extract_afm basic (L_AFM ++ u "123456789" ++ u "0123") = Some (u "123456789").
Proof.
  apply (@extract_afm_no_boundary (u "123456789") (u "0123")); reflexivity.
Defined.

(* ------------------------------------------------------------------ *)
(** * Vote-choice extraction (C2) *)
(* ------------------------------------------------------------------ *)

Lemma truthy_nonempty (s : pystr) : truthy s = true <-> s <> [].
Proof. destruct s; simpl; split; congruence. Qed.

Lemma sane_check (choice : pystr) :
  truthy choice && Nat.ltb (length choice) 200 = true <-> sane choice.
Proof.
  unfold sane. rewrite andb_true_iff, truthy_nonempty, Nat.ltb_lt. tauto.
Qed.

(** C2 (as amended).  [_extract_vote_choice] is settled by the candidates
    of its four strategies, in this order.  If the English bracketed pattern
    matches, the function returns its candidate, whatever that candidate is:
    no emptiness or length check is made and no later strategy is tried.
    Otherwise, if the Greek bracketed pattern matches, it returns that
    candidate, on the same terms.  Only when neither bracketed pattern
    matches is a returned value non-empty and shorter than 200 characters:
    the function then returns the candidate of the flexible Greek pattern if
    that one passes the check, else the candidate of the loosest Greek
    pattern if that one passes it, and else none.  A returned value is
    always trimmed. *)
Theorem extract_vote_choice_cascade (U : unicode) (text : pystr) :
  (forall v, _extract_vote_choice U text = Some v -> trimmed U v) /\
  match candidate U VOTE_CHOICE_PATTERN text with
  | Some c1 => _extract_vote_choice U text = Some c1
  | None =>
    match candidate U VOTE_CHOICE_PATTERN_GR text with
    | Some c2 => _extract_vote_choice U text = Some c2
    | None =>
      (forall v, _extract_vote_choice U text = Some v -> sane v) /\
      (forall c3,
         candidate U (VOTE_CHOICE_PATTERN_GR_ALT U) text = Some c3 -> sane c3 ->
         _extract_vote_choice U text = Some c3) /\
      (~ (exists c3,
            candidate U (VOTE_CHOICE_PATTERN_GR_ALT U) text = Some c3 /\ sane c3) ->
       (forall c4,
          candidate U VOTE_CHOICE_PATTERN_GR_OTI text = Some c4 -> sane c4 ->
          _extract_vote_choice U text = Some c4) /\
       (~ (exists c4,
             candidate U VOTE_CHOICE_PATTERN_GR_OTI text = Some c4 /\ sane c4) ->
        _extract_vote_choice U text = None))
    end
  end.
Proof.
  unfold _extract_vote_choice, candidate.
  destruct (search U VOTE_CHOICE_PATTERN text) as [g1|].
  { split; [|reflexivity].
    intros v E; inversion E; subst v. apply strip_trimmed. }
  destruct (search U VOTE_CHOICE_PATTERN_GR text) as [g2|].
  { split; [|reflexivity].
    intros v E; inversion E; subst v. apply strip_trimmed. }
  cbv zeta.
  destruct (search U VOTE_CHOICE_PATTERN_GR_OTI text) as [g4|];
    destruct (search U (VOTE_CHOICE_PATTERN_GR_ALT U) text) as [g3|];
    try destruct (truthy (strip U g3) && Nat.ltb (length (strip U g3)) 200) eqn:H3;
    try destruct (truthy (strip U g4) && Nat.ltb (length (strip U g4)) 200) eqn:H4;
    repeat match goal with
           | H : _ && _ = true |- _ => apply sane_check in H
           | H : _ && _ = false |- _ =>
             apply not_true_iff_false in H; rewrite sane_check in H
           end;
    (split; [intros v E; inversion E; subst v; apply strip_trimmed|]);
    (split; [intros v E; inversion E; subst v; assumption|]);
    (split; [intros c3 E S3; inversion E; subst c3; solve [reflexivity|contradiction]|]);
    intros N3;
    try (exfalso; apply N3; eexists; split; [reflexivity|assumption]);
    (split; [intros c4 E S4; inversion E; subst c4; solve [reflexivity|contradiction]|]);
    intros N4;
    try (exfalso; apply N4; eexists; split; [reflexivity|assumption]);
    reflexivity.
Qed.

(** The branches of the cascade at work: a bracketed candidate is returned;
    so is a flexible one that passes the check; text without any of the
    phrases gives none. *)
Lemma extract_vote_choice_cascade_witness :
  _extract_vote_choice basic (u "I vote for [Option A] in this election")
  = Some (u "Option A") /\
  _extract_vote_choice basic (u "Εγώ ψηφίζω: Επιλογή Β")
  = Some (u "Επιλογή Β") /\
  _extract_vote_choice basic (u "This declaration has no vote") = None.
Proof.
  split; [|split].
  - exact (proj2 (extract_vote_choice_cascade basic
             (u "I vote for [Option A] in this election"))).
  - refine (proj1 (proj2 (proj2 (extract_vote_choice_cascade basic
              (u "Εγώ ψηφίζω: Επιλογή Β")))) _ _ _).
    + vm_compute. reflexivity.
    + split; [discriminate | vm_compute; repeat constructor].
  - refine (proj2 (proj2 (proj2 (proj2 (extract_vote_choice_cascade basic
              (u "This declaration has no vote")))) _) _).
    + intros (c3 & E & _). vm_compute in E. discriminate E.
    + intros (c4 & E & _). vm_compute in E. discriminate E.
Defined.

(** C2, the claim as stated fails.  With empty brackets the value returned
    is the empty string, which is neither none nor non-empty; a bracketed
    candidate of 300 characters is returned as it is; an empty bracketed
    candidate is not passed over in favour of the Greek bracketed pattern,
    whose candidate X is non-empty and short; and a flexible candidate of
    exactly 200 characters is discarded in favour of the loosest pattern. *)
Lemma extract_vote_choice_unchecked_brackets :
  _extract_vote_choice basic (u "vote for []") = Some [] /\
  _extract_vote_choice basic (u "vote for [" ++ repeat 120%N 300 ++ u "]")
  = Some (repeat 120%N 300) /\
  (_extract_vote_choice basic (u "vote for [] ψηφίζω [X]") = Some [] /\
   candidate basic VOTE_CHOICE_PATTERN_GR (u "vote for [] ψηφίζω [X]")
   = Some (u "X")) /\
  (candidate basic (VOTE_CHOICE_PATTERN_GR_ALT basic)
     (u "ψηφίζω για " ++ repeat 120%N 196)
   = Some (u "για " ++ repeat 120%N 196) /\
   length (u "για " ++ repeat 120%N 196) = 200 /\
   _extract_vote_choice basic (u "ψηφίζω για " ++ repeat 120%N 196)
   = Some (repeat 120%N 196)).
Proof. repeat split; vm_compute; reflexivity. Qed.

(* ------------------------------------------------------------------ *)
(** * Gate 1 (C3, C6) *)
(* ------------------------------------------------------------------ *)

Section Gate1Facts.

Variable U : unicode.
Variable L : libraries.
Variable settings : Settings.

Lemma scan_skips_validation_error before : forall after found,
  scan_signatures U settings (before ++ RaisesSignatureValidationError :: after) found
  = scan_signatures U settings (before ++ after) found.
Proof.
  induction before as [|sig before IH]; intros after found; [reflexivity|].
  cbn [app scan_signatures].
  destruct sig as [valid intact [cert|]| |e]; auto.
  - destruct (valid && intact); auto.
    destruct (_is_allowed_signer U settings (_extract_signer_name cert)); auto.
  - destruct (valid && intact); auto.
Qed.

Lemma scan_stops_at_other before : forall e after found found',
  scan_signatures U settings before found = Returns (None, found') ->
  scan_signatures U settings (before ++ RaisesOther e :: after) found = Raises e.
Proof.
  induction before as [|sig before IH]; intros e after found found' H;
    [reflexivity|].
  cbn [app scan_signatures] in *.
  destruct sig as [valid intact [cert|]| |e']; eauto; try discriminate.
  - destruct (valid && intact); eauto.
    destruct (_is_allowed_signer U settings (_extract_signer_name cert)); eauto.
    discriminate.
  - destruct (valid && intact); eauto.
Qed.

Lemma scan_without_trusted sigs : forall found,
  existsb raises_other sigs = false ->
  forallb (fun name => negb (_is_allowed_signer U settings name))
    (candidate_signers sigs) = true ->
  scan_signatures U settings sigs found
  = Returns (None, found ++ candidate_signers sigs).
Proof.
  unfold candidate_signers.
  induction sigs as [|sig sigs IH]; intros found Hex Hall.
  - simpl. rewrite app_nil_r. reflexivity.
  - cbn [existsb] in Hex. apply orb_false_elim in Hex as [Hsig Hex].
    cbn [flat_map] in Hall. rewrite forallb_app in Hall.
    apply andb_prop in Hall as [Hhead Hall].
    cbn [scan_signatures flat_map].
    destruct sig as [valid intact [cert|]| |e]; try discriminate.
    + destruct valid, intact; cbn [andb]; try (apply IH; assumption).
      cbn [forallb] in Hhead. rewrite andb_true_r in Hhead.
      apply negb_true_iff in Hhead. rewrite Hhead.
      rewrite IH by assumption. rewrite <- app_assoc. reflexivity.
    + destruct valid, intact; cbn [andb]; apply IH; assumption.
    + apply IH; assumption.
Qed.

Lemma gate1_of_signatures pdf sigs :
  embedded_signatures L pdf = Returns sigs -> sigs <> [] ->
  _gate1_verify_signature U L settings pdf
  = signature_verdict (scan_signatures U settings sigs []).
Proof.
  intros E Hne. unfold _gate1_verify_signature. rewrite E.
  destruct sigs; [contradiction|reflexivity].
Qed.

Lemma is_allowed_signer_spec name :
  _is_allowed_signer U settings name = true <->
  exists allowed, In allowed (ALLOWED_SIGNERS settings) /\
    (Substring (upper U allowed) (upper U name) \/
     Substring (upper U name) (upper U allowed)).
Proof.
  unfold _is_allowed_signer. rewrite existsb_exists.
  split; intros (allowed & Hin & H); exists allowed; (split; [exact Hin|]).
  - rewrite orb_true_iff, !contains_spec in H. exact H.
  - rewrite orb_true_iff, !contains_spec. exact H.
Qed.

End Gate1Facts.

(** C3 (as amended).  A [SignatureValidationError] raised for one signature
    is not fatal: that signature is skipped and the scan continues with the
    next signature, with the signer names found so far, so that the gate
    answers with the verdict of the scan over the other signatures, in their
    order.  This is not the answer for a document without the signature when
    there is no other signature: the gate then rejects with UNKNOWN_SIGNER,
    no signer found.  Any other exception raised by the validator is fatal
    as soon as the loop reaches it: the gate rejects with
    INVALID_SIGNATURE. *)
Theorem gate1_validator_exceptions (U : unicode) (L : libraries)
    (settings : Settings) (pdf : bytes) (before after : list signature)
    (sig : signature) :
  embedded_signatures L pdf = Returns (before ++ sig :: after) ->
  (sig = RaisesSignatureValidationError ->
   (forall found,
      scan_signatures U settings (sig :: after) found
      = scan_signatures U settings after found) /\
   _gate1_verify_signature U L settings pdf
   = signature_verdict (scan_signatures U settings (before ++ after) []) /\
   (before ++ after = [] ->
    _gate1_verify_signature U L settings pdf
    = rejected UNKNOWN_SIGNER
        (u "PDF signature is not from a recognized government authority. Found: None")))
  /\
  (forall e found,
     sig = RaisesOther e ->
     scan_signatures U settings before [] = Returns (None, found) ->
     _gate1_verify_signature U L settings pdf
     = rejected INVALID_SIGNATURE (u "Signature verification failed: " ++ e)).
Proof.
  intros E.
  assert (Hne : before ++ sig :: after <> []) by (destruct before; discriminate).
  rewrite (@gate1_of_signatures U L settings _ _ E Hne). split.
  - intros ->. split; [reflexivity|].
    rewrite scan_skips_validation_error. split; [reflexivity|].
    intros ->. reflexivity.
  - intros e found -> Hscan.
    erewrite scan_stops_at_other by exact Hscan. reflexivity.
Qed.

Lemma gate1_validator_exceptions_witness :
  (_gate1_verify_signature basic
     (reader_of [RaisesSignatureValidationError; Status true true (Some apostille_cert)] [])
     default_settings []
   = signature_verdict
       (scan_signatures basic default_settings [Status true true (Some apostille_cert)] [])
   /\
   _gate1_verify_signature basic
     (reader_of [RaisesSignatureValidationError] []) default_settings []
   = rejected UNKNOWN_SIGNER
       (u "PDF signature is not from a recognized government authority. Found: None"))
  /\
  _gate1_verify_signature basic
    (reader_of [RaisesOther (u "ValueError"); Status true true (Some apostille_cert)] [])
    default_settings []
  = rejected INVALID_SIGNATURE (u "Signature verification failed: " ++ u "ValueError").
Proof.
  split; [split|].
  - exact (proj1 (proj2 (proj1 (@gate1_validator_exceptions basic
             (reader_of [RaisesSignatureValidationError;
                         Status true true (Some apostille_cert)] [])
             default_settings [] [] [Status true true (Some apostille_cert)]
             RaisesSignatureValidationError eq_refl) eq_refl))).
  - exact (proj2 (proj2 (proj1 (@gate1_validator_exceptions basic
             (reader_of [RaisesSignatureValidationError] [])
             default_settings [] [] [] RaisesSignatureValidationError eq_refl)
             eq_refl)) eq_refl).
  - exact (proj2 (@gate1_validator_exceptions basic
             (reader_of [RaisesOther (u "ValueError");
                         Status true true (Some apostille_cert)] [])
             default_settings [] [] [Status true true (Some apostille_cert)]
             (RaisesOther (u "ValueError")) eq_refl)
             (u "ValueError") [] eq_refl eq_refl).
Defined.

(** C3, the claim as stated fails: an exception of another class is not
    skipped.  The document signed by APOSTILLE is accepted; the same
    document with one more signature in front, on which the validator
    raises a ValueError, is rejected by the whole gate. *)
Lemma gate1_other_exception_is_fatal :
  let trusted := Status true true (Some apostille_cert) in
  success
    (_gate1_verify_signature basic (reader_of [trusted] []) default_settings [])
  = true /\
  _gate1_verify_signature basic
    (reader_of [RaisesOther (u "ValueError"); trusted] []) default_settings []
  = rejected INVALID_SIGNATURE (u "Signature verification failed: ValueError").
Proof. split; vm_compute; reflexivity. Qed.

(** C6 (as amended).  The allow-list test succeeds exactly when some
    configured fragment, upper-cased, is a substring of the upper-cased
    signer name, or the other way round.  When the document has at least one
    signature, the validator raises nothing but [SignatureValidationError]
    and no valid signature's signer passes the test, gate 1 rejects with
    UNKNOWN_SIGNER, and its message ends with the list of every candidate
    signer name found, each of them occurring in it. *)
Theorem gate1_unknown_signer (U : unicode) (L : libraries) (settings : Settings) :
  (forall name,
     _is_allowed_signer U settings name = true <->
     exists allowed, In allowed (ALLOWED_SIGNERS settings) /\
       (Substring (upper U allowed) (upper U name) \/
        Substring (upper U name) (upper U allowed))) /\
  (forall pdf sigs,
     embedded_signatures L pdf = Returns sigs ->
     sigs <> [] ->
     existsb raises_other sigs = false ->
     forallb (fun name => negb (_is_allowed_signer U settings name))
       (candidate_signers sigs) = true ->
     _gate1_verify_signature U L settings pdf
     = rejected UNKNOWN_SIGNER (unknown_signer_message (candidate_signers sigs)) /\
     forall name, In name (candidate_signers sigs) ->
       Substring name (message (_gate1_verify_signature U L settings pdf))).
Proof.
  split; [apply is_allowed_signer_spec|].
  intros pdf sigs E Hne Hex Hall.
  assert (Hg : _gate1_verify_signature U L settings pdf
               = rejected UNKNOWN_SIGNER
                   (unknown_signer_message (candidate_signers sigs))).
  { rewrite (@gate1_of_signatures U L settings _ _ E Hne).
    rewrite (scan_without_trusted U settings sigs [] Hex Hall). reflexivity. }
  split; [exact Hg|].
  intros name Hin. rewrite Hg. cbn [message rejected].
  unfold unknown_signer_message.
  destruct (candidate_signers sigs) as [|c cs] eqn:Ec; [destruct Hin|].
  destruct (substring_of_join (u ", ") name (c :: cs) Hin) as (pre & post & Ej).
  exists (u "PDF signature is not from a recognized government authority. Found: "
          ++ pre), post.
  rewrite Ej, <- app_assoc. reflexivity.
Qed.

Lemma gate1_unknown_signer_witness :
  _gate1_verify_signature basic
    (reader_of [RaisesSignatureValidationError; Status true true (Some stranger_cert)] [])
    default_settings []
  = rejected UNKNOWN_SIGNER (unknown_signer_message [u "Evil CA"]) /\
  forall name, In name [u "Evil CA"] ->
    Substring name
      (message
         (_gate1_verify_signature basic
            (reader_of [RaisesSignatureValidationError;
                        Status true true (Some stranger_cert)] [])
            default_settings [])).
Proof.
  refine (proj2 (@gate1_unknown_signer basic
            (reader_of [RaisesSignatureValidationError;
                        Status true true (Some stranger_cert)] [])
            default_settings) []
            [RaisesSignatureValidationError; Status true true (Some stranger_cert)]
            eq_refl _ eq_refl eq_refl).
  discriminate.
Defined.

(** C6, the claim as stated fails.  A document with no signature at all is
    answered NO_SIGNATURE.  A document whose one valid signature is by the
    stranger Evil CA, who fails the test, and whose second signature makes
    the validator raise a ValueError, is answered INVALID_SIGNATURE, with a
    message that does not name Evil CA. *)
Lemma gate1_untrusted_not_always_unknown_signer :
  let sigs := [Status true true (Some stranger_cert); RaisesOther (u "ValueError")] in
  rejection_reason
    (_gate1_verify_signature basic (reader_of [] []) default_settings [])
  = Some NO_SIGNATURE /\
  candidate_signers sigs = [u "Evil CA"] /\
  _is_allowed_signer basic default_settings (u "Evil CA") = false /\
  _gate1_verify_signature basic (reader_of sigs []) default_settings []
  = rejected INVALID_SIGNATURE (u "Signature verification failed: ValueError") /\
  contains (u "Evil CA")
    (message (_gate1_verify_signature basic (reader_of sigs []) default_settings []))
  = false.
Proof. repeat split; vm_compute; reflexivity. Qed.

(** The test is symmetric, so the empty signer name passes it against any
    fragment; the gate then still answers UNKNOWN_SIGNER, because the empty
    name it kept counts as false. *)
Example gate1_empty_signer_name :
  let nameless :=
    {| cert_type := u "Certificate"; human_friendly := Some [];
       subject := None; has_public_bytes := false; cert_str := [] |} in
  _is_allowed_signer basic default_settings [] = true /\
  rejection_reason
    (_gate1_verify_signature basic
       (reader_of [Status true true (Some nameless)] []) default_settings [])
  = Some UNKNOWN_SIGNER.
Proof. split; vm_compute; reflexivity. Qed.

(* ------------------------------------------------------------------ *)
(** * Gate 3 (C4, C8) *)
(* ------------------------------------------------------------------ *)

(** C4.  Gate 3 rejects with INVALID_TOKEN when the token is empty.  For a
    non-empty token: with debug off it rejects with TOKEN_NOT_FOUND exactly
    when the token is not a substring of the text, and accepts otherwise;
    with debug on it accepts whatever the text. *)
Theorem gate3_contract (settings : Settings) (text poll_token : pystr) :
  (poll_token = [] ->
   _gate3_verify_token settings text poll_token
   = rejected INVALID_TOKEN (u "Poll token is required")) /\
  (poll_token <> [] -> DEBUG settings = false ->
   (rejection_reason (_gate3_verify_token settings text poll_token)
    = Some TOKEN_NOT_FOUND <-> ~ Substring poll_token text) /\
   (Substring poll_token text ->
    _gate3_verify_token settings text poll_token = accepted (u "Token verified")) /\
   (~ Substring poll_token text ->
    success (_gate3_verify_token settings text poll_token) = false)) /\
  (poll_token <> [] -> DEBUG settings = true ->
   _gate3_verify_token settings text poll_token
   = accepted (u "Token check bypassed in debug mode")).
Proof.
  unfold _gate3_verify_token. split; [|split].
  - intros ->. reflexivity.
  - intros Hne Hd. apply truthy_nonempty in Hne. rewrite Hne, Hd. cbn [negb].
    destruct (contains poll_token text) eqn:Hc; cbn [negb].
    + apply contains_spec in Hc. split; [|split].
      * split; [discriminate | intros H; destruct (H Hc)].
      * reflexivity.
      * intros H; destruct (H Hc).
    + assert (Hn : ~ Substring poll_token text).
      { intros H. apply contains_spec in H. congruence. }
      split; [|split].
      * split; [intros _; exact Hn | reflexivity].
      * intros H; destruct (Hn H).
      * reflexivity.
  - intros Hne Hd. apply truthy_nonempty in Hne. rewrite Hne, Hd. reflexivity.
Qed.

(** C8.  Whatever the text and the debug flag, an empty token is rejected
    with INVALID_TOKEN: the emptiness test comes before the debug branch.
    What debug mode does skip is the substring test: with the flag on, a
    non-empty token is accepted whether or not the text contains it. *)
Theorem gate3_empty_token (settings : Settings) (text : pystr) :
  _gate3_verify_token settings text []
  = rejected INVALID_TOKEN (u "Poll token is required") /\
  (forall poll_token,
     DEBUG settings = true -> poll_token <> [] ->
     success (_gate3_verify_token settings text poll_token) = true).
Proof.
  split; [reflexivity|].
  intros poll_token Hd Hne. unfold _gate3_verify_token.
  apply truthy_nonempty in Hne. rewrite Hne, Hd. reflexivity.
Qed.

(* ------------------------------------------------------------------ *)
(** * The two entry points (C7, C10, C1) *)
(* ------------------------------------------------------------------ *)

Lemma exclusive_rejected reason msg : exclusive (rejected reason msg).
Proof. split; [discriminate | intros _; eexists; reflexivity]. Qed.

Lemma exclusive_accepted msg : exclusive (accepted msg).
Proof. split; [reflexivity | discriminate]. Qed.

Lemma exclusive_with_voter_hash h r : exclusive r -> exclusive (with_voter_hash h r).
Proof. intros H. exact H. Qed.

Lemma exclusive_with_file_hash h r : exclusive r -> exclusive (with_file_hash h r).
Proof. intros H. exact H. Qed.

Lemma exclusive_with_signer_name n r : exclusive r -> exclusive (with_signer_name n r).
Proof. intros H. exact H. Qed.

Create HintDb shapes.

#[local] Hint Resolve exclusive_rejected exclusive_accepted
  exclusive_with_voter_hash exclusive_with_file_hash exclusive_with_signer_name
  : shapes.

Section ValidateFacts.

Variable U : unicode.
Variable L : libraries.
Variable settings : Settings.

Lemma gate1_exclusive pdf : exclusive (_gate1_verify_signature U L settings pdf).
Proof.
  unfold _gate1_verify_signature, signature_verdict.
  destruct (embedded_signatures L pdf) as [[|sig sigs]|e]; auto with shapes.
  destruct (scan_signatures U settings (sig :: sigs) []) as [[[name|] found]|e];
    auto with shapes.
  destruct (truthy name); auto with shapes.
Qed.

Lemma gate2_result file_hash db :
  _gate2_check_uniqueness file_hash db
  = (Returns
       (match query_first (fun v => str_eqb (Vote.file_hash v) file_hash) db with
        | Some _ =>
          with_file_hash file_hash
            (rejected DUPLICATE_FILE (u "This declaration has already been submitted"))
        | None => with_file_hash file_hash (accepted (u "File is unique"))
        end), db).
Proof.
  unfold _gate2_check_uniqueness, bind, query, ret.
  destruct (query_first _ db); reflexivity.
Qed.

Lemma gate3_exclusive text token :
  exclusive (_gate3_verify_token settings text token).
Proof.
  unfold _gate3_verify_token.
  destruct (negb (truthy token)); auto with shapes.
  destruct (DEBUG settings); auto with shapes.
  destruct (negb (contains token text)); auto with shapes.
Qed.

Lemma gate4_exclusive text poll_id db :
  on_return exclusive (fst (_gate4_verify_identity U L settings text poll_id db)).
Proof.
  unfold _gate4_verify_identity, afm_not_found.
  destruct (_extract_afm U text) as [afm|]; [|simpl; auto with shapes].
  destruct (negb (truthy afm)); [simpl; auto with shapes|].
  unfold bind, query, ret, delete, commit.
  destruct (query_first _ db) as [existing|]; [|simpl; auto with shapes].
  destruct (ALLOW_VOTE_UPDATE settings); [|simpl; auto with shapes].
  destruct (insert_all _ _ _) as [[table key]|e]; simpl; auto with shapes.
Qed.

End ValidateFacts.

(** C7.  A result returned by [validate] or by [validate_identity] has one
    of two shapes: success with no rejection reason, or failure with one of
    the reasons of [RejectionReason]. *)
Theorem results_exclusive (U : unicode) (L : libraries) (settings : Settings)
    (utcnow : N) (pdf_bytes : bytes) (poll_id poll_token : pystr) (db : Session) :
  on_return exclusive
    (fst (validate U L settings utcnow pdf_bytes poll_id poll_token db)) /\
  exclusive (validate_identity U L settings pdf_bytes).
Proof.
  split.
  - unfold validate.
    pose proof (gate1_exclusive U L settings pdf_bytes) as X1.
    destruct (negb (success (_gate1_verify_signature U L settings pdf_bytes)));
      [exact X1|].
    unfold bind at 1. rewrite gate2_result.
    match goal with
    | |- context [if negb (success ?r) then _ else _] =>
      assert (X2 : exclusive r)
        by (destruct (query_first _ db); auto with shapes);
      destruct (negb (success r)); [exact X2|]
    end.
    unfold _extract_text.
    destruct (page_texts L pdf_bytes) as [pages|e];
      [|simpl; unfold pdf_read_error; auto with shapes].
    pose proof (gate3_exclusive settings (join [NL] (filter truthy pages)) poll_token)
      as X3.
    destruct (negb (success (_gate3_verify_token settings _ poll_token)));
      [exact X3|].
    unfold bind at 1.
    pose proof (gate4_exclusive U L settings (join [NL] (filter truthy pages))
                  poll_id db) as X4.
    destruct (_gate4_verify_identity U L settings _ poll_id db) as [[g4|e] db1];
      [|exact I].
    simpl in X4.
    destruct (negb (success g4)); [exact X4|].
    cbv zeta.
    destruct (_extract_vote_choice U _) as [choice|];
      [|simpl; auto with shapes].
    destruct (negb (truthy choice)); [simpl; auto with shapes|].
    unfold bind, ret.
    destruct (_record_vote _ _ _ _ _ db1) as [[v|e] db2]; simpl; [|exact I].
    split; [reflexivity | discriminate].
  - unfold validate_identity.
    pose proof (gate1_exclusive U L settings pdf_bytes) as X1.
    destruct (negb (success (_gate1_verify_signature U L settings pdf_bytes)));
      [exact X1|].
    unfold _extract_text.
    destruct (page_texts L pdf_bytes) as [pages|e];
      [|unfold pdf_read_error; auto with shapes].
    destruct (_extract_afm U _) as [afm|];
      [|unfold afm_not_found; auto with shapes].
    destruct (negb (truthy afm)); [unfold afm_not_found; auto with shapes|].
    split; [reflexivity | discriminate].
Qed.

(** ** The session through a run *)

Lemma find_none_existsb (A : Type) (p : A -> bool) (l : list A) :
  find p l = None -> existsb p l = false.
Proof.
  induction l as [|x l IH]; simpl; [reflexivity|].
  destruct (p x); [discriminate | exact IH].
Qed.

Lemma existsb_filter_false (A : Type) (p q : A -> bool) (l : list A) :
  existsb p l = false -> existsb p (filter q l) = false.
Proof.
  induction l as [|x l IH]; simpl; [reflexivity|].
  intros H. apply orb_false_elim in H as [Hx Hl].
  destruct (q x); simpl; [rewrite Hx|]; auto.
Qed.

Section StoreFacts.

Variable U : unicode.
Variable L : libraries.
Variable settings : Settings.

(** Gate 4 on a session with nothing pending: it returns, what it returns
    does not depend on the key counter, and the table it leaves is the one
    it found, less (under the update policy) the voter's earlier row. *)
Lemma gate4_on_open_session text poll_id table :
  exists r table',
    (forall key,
       _gate4_verify_identity U L settings text poll_id (open_session table key)
       = (Returns r, open_session table' key)) /\
    (success r = true -> exists h, voter_hash r = Some h) /\
    (forall p, existsb p table = false -> existsb p table' = false).
Proof.
  unfold _gate4_verify_identity, afm_not_found.
  destruct (_extract_afm U text) as [afm|].
  2:{ exists (rejected AFM_NOT_FOUND (u "Could not find AFM/Tax ID in the declaration")),
             table.
      split; [reflexivity|]. split; [discriminate|auto]. }
  destruct (negb (truthy afm)).
  { eexists _, table. split; [reflexivity|]. split; [discriminate|auto]. }
  unfold bind, query, ret, delete, commit, query_first, db_delete.
  cbn [rows next_id pending_new pending_deleted open_session].
  destruct (find _ table) as [existing|].
  2:{ eexists _, table. split; [reflexivity|].
      split; [intros _; eexists; reflexivity | auto]. }
  destruct (ALLOW_VOTE_UPDATE settings).
  - eexists _, (delete_all [Vote.id existing] table).
    split; [reflexivity|]. split; [intros _; eexists; reflexivity|].
    intros p Hp. apply existsb_filter_false. exact Hp.
  - eexists _, table. split; [reflexivity|]. split; [discriminate|auto].
Qed.

Lemma record_vote_on_open_session utcnow poll_id h file_hash vote_choice table key :
  existsb (fun r => str_eqb (Vote.file_hash r) file_hash) table = false ->
  exists v db',
    _record_vote utcnow poll_id (Some h) file_hash vote_choice (open_session table key)
    = (Returns v, db').
Proof.
  intros H. unfold _record_vote, bind, add, commit, query, ret, db_add.
  cbn [rows next_id pending_new pending_deleted open_session app insert_all Vote.file_hash].
  rewrite H. eexists _, _. reflexivity.
Qed.

(** On a session with nothing pending [validate] returns a result, and the
    result is the same whatever the clock and the key counter. *)
Lemma validate_returns_same pdf_bytes poll_id poll_token table :
  exists r, forall utcnow key, exists db',
    validate U L settings utcnow pdf_bytes poll_id poll_token (open_session table key)
    = (Returns r, db').
Proof.
  unfold validate.
  destruct (negb (success (_gate1_verify_signature U L settings pdf_bytes))) eqn:H1.
  { eexists. intros. eexists. reflexivity. }
  assert (Hg2 : forall key,
    _gate2_check_uniqueness (_calculate_file_hash L pdf_bytes) (open_session table key)
    = (Returns
         (match find (fun v => str_eqb (Vote.file_hash v)
                                 (_calculate_file_hash L pdf_bytes)) table with
          | Some _ =>
            with_file_hash (_calculate_file_hash L pdf_bytes)
              (rejected DUPLICATE_FILE
                 (u "This declaration has already been submitted"))
          | None =>
            with_file_hash (_calculate_file_hash L pdf_bytes)
              (accepted (u "File is unique"))
          end), open_session table key)).
  { intros key. apply gate2_result. }
  destruct (find (fun v => str_eqb (Vote.file_hash v) (_calculate_file_hash L pdf_bytes))
              table) as [dup|] eqn:Hq.
  { eexists. intros utcnow key. eexists.
    unfold bind at 1. rewrite Hg2. reflexivity. }
  pose proof (find_none_existsb _ _ Hq) as Hfresh.
  destruct (_extract_text L pdf_bytes) as [text|e] eqn:Ht.
  2:{ eexists. intros utcnow key. eexists.
      unfold bind at 1. rewrite Hg2. reflexivity. }
  destruct (negb (success (_gate3_verify_token settings text poll_token))) eqn:H3.
  { eexists. intros utcnow key. eexists.
    unfold bind at 1. rewrite Hg2. reflexivity. }
  destruct (gate4_on_open_session text poll_id table) as (g4 & table' & Hg4 & Hh & Hsub).
  destruct (negb (success g4)) eqn:H4.
  { eexists. intros utcnow key. eexists.
    unfold bind at 1. rewrite Hg2. cbn [success with_file_hash accepted negb].
    unfold bind at 1. rewrite Hg4, H4. reflexivity. }
  pose proof H4 as H4'. apply negb_false_iff in H4'. destruct (Hh H4') as [h Eh].
  cbv zeta.
  destruct (_extract_vote_choice U text) as [choice|] eqn:Hc.
  2:{ eexists; intros utcnow key; eexists.
      unfold bind at 1; rewrite Hg2; cbn [success with_file_hash accepted negb].
      unfold bind at 1; rewrite Hg4, H4; reflexivity. }
  destruct (negb (truthy choice)) eqn:Hn.
  { eexists; intros utcnow key; eexists.
    unfold bind at 1; rewrite Hg2; cbn [success with_file_hash accepted negb].
    unfold bind at 1; rewrite Hg4, H4; reflexivity. }
  eexists. intros utcnow key.
  destruct (@record_vote_on_open_session utcnow poll_id h
              (_calculate_file_hash L pdf_bytes) choice table' key
              (Hsub _ Hfresh)) as (v & db2 & Hr).
  exists db2.
  unfold bind at 1. rewrite Hg2. cbn [success with_file_hash accepted negb].
  unfold bind at 1. rewrite Hg4, H4.
  rewrite Eh. unfold bind, ret. rewrite Hr. reflexivity.
Qed.

End StoreFacts.

(** C10.  For a fixed configuration and a fixed table, the outcome of
    [validate] on given bytes, poll identifier and token does not depend on
    what else may vary between two runs: the clock read for [created_at] and
    the next autoincrement key. *)
Theorem validate_deterministic (U : unicode) (L : libraries) (settings : Settings)
    (pdf_bytes : bytes) (poll_id poll_token : pystr) (table : list Vote.t)
    (utcnow1 utcnow2 key1 key2 : N) :
  fst (validate U L settings utcnow1 pdf_bytes poll_id poll_token
         (open_session table key1))
  = fst (validate U L settings utcnow2 pdf_bytes poll_id poll_token
           (open_session table key2)).
Proof.
  destruct (validate_returns_same U L settings pdf_bytes poll_id poll_token table)
    as [r Hr].
  destruct (Hr utcnow1 key1) as [db1 E1].
  destruct (Hr utcnow2 key2) as [db2 E2].
  rewrite E1, E2. reflexivity.
Qed.

(* ------------------------------------------------------------------ *)
(** * The supersede path (C1) *)
(* ------------------------------------------------------------------ *)

(** Under the update policy gate 4 itself commits: when it leaves, the
    earlier row of the voter is gone from the committed table, before the
    choice has been looked at and before anything is inserted. *)
Lemma gate4_commits_deletion (U : unicode) (L : libraries) (settings : Settings)
    (text poll_id afm : pystr) (table : list Vote.t) (key : N) (existing : Vote.t) :
  ALLOW_VOTE_UPDATE settings = true ->
  _extract_afm U text = Some afm -> afm <> [] ->
  find (fun v => str_eqb (Vote.poll_id v) poll_id
                 && str_eqb (Vote.voter_hash v) (_hash_voter_id L settings afm))
       table = Some existing ->
  _gate4_verify_identity U L settings text poll_id (open_session table key)
  = (Returns (with_voter_hash (_hash_voter_id L settings afm)
                (accepted (u "Previous vote will be updated"))),
     open_session (delete_all [Vote.id existing] table) key).
Proof.
  intros Hu Ha Hne Hf. unfold _gate4_verify_identity.
  rewrite Ha. apply truthy_nonempty in Hne. rewrite Hne. cbn [negb].
  unfold bind, query, ret, delete, commit, query_first, db_delete.
  cbn [rows next_id pending_new pending_deleted open_session].
  rewrite Hf, Hu. reflexivity.
Qed.

(** C1, what the code does instead.  The update policy is on and the voter
    has a vote on record.  A new, correctly signed declaration of the same
    voter carries the token and the tax number but no vote phrase:
    [validate] rejects it with VOTE_CHOICE_NOT_FOUND, and the table, which
    held the earlier vote, is left empty.  The deletion was committed by
    gate 4, on its own, before the rejection. *)
Theorem validate_rejection_deletes_earlier_vote :
  let db := open_session [earlier_vote] 2 in
  let run :=
    validate basic declaration_without_choice update_settings 7 []
      (u "poll-1") (u "tok-1") db in
  rows db = [earlier_vote] /\
  fst run
  = Returns (rejected VOTE_CHOICE_NOT_FOUND
               (u "Could not find vote choice in declaration. Expected format: 'vote for [OPTION]'")) /\
  rows (snd run) = [] /\
  snd (_gate4_verify_identity basic declaration_without_choice update_settings
         (u "Security Token: tok-1" ++ [NL] ++ u "AFM: 123456789") (u "poll-1") db)
  = open_session [] 2.
Proof. repeat split; vm_compute; reflexivity. Qed.

(** On the accepting path the replacement takes two commits: between them
    the committed table holds no vote of that voter. *)
Example validate_supersede_two_commits :
  let db := open_session [earlier_vote] 2 in
  let text := u "I vote for [Option B] in the Community Poll. Security Token: tok-1"
              ++ [NL] ++ u "AFM: 123456789" in
  rows (snd (_gate4_verify_identity basic complete_declaration update_settings
               text (u "poll-1") db)) = [] /\
  map Vote.vote_choice
    (rows (snd (validate basic complete_declaration update_settings 7 []
                  (u "poll-1") (u "tok-1") db))) = [u "Option B"].
Proof. split; vm_compute; reflexivity. Qed.

(* ------------------------------------------------------------------ *)
(** * Scenarios of the specification *)
(* ------------------------------------------------------------------ *)

Example scenario_accepted :
  let run :=
    validate basic complete_declaration default_settings 7 (u "pdf-1")
      (u "poll-1") (u "tok-1") (open_session [] 1) in
  fst run
  = Returns {| success := true; rejection_reason := None;
               message := u "Vote successfully recorded";
               voter_hash := Some (u "123456789" ++ SALT_KEY default_settings);
               vote_choice := Some (u "Option B");
               file_hash := Some (u "pdf-1");
               signer_name := Some (u "APOSTILLE") |} /\
  rows (snd run)
  = [{| Vote.id := 1; Vote.poll_id := u "poll-1";
        Vote.voter_hash := u "123456789" ++ SALT_KEY default_settings;
        Vote.file_hash := u "pdf-1"; Vote.vote_choice := u "Option B";
        Vote.created_at := 7 |}].
Proof. split; vm_compute; reflexivity. Qed.

Example scenario_duplicate_file :
  let first :=
    validate basic complete_declaration default_settings 7 (u "pdf-1")
      (u "poll-1") (u "tok-1") (open_session [] 1) in
  option_map rejection_reason
    (match fst (validate basic complete_declaration default_settings 8 (u "pdf-1")
                  (u "poll-1") (u "tok-1") (snd first)) with
     | Returns r => Some r
     | Raises _ => None
     end)
  = Some (Some DUPLICATE_FILE).
Proof. vm_compute. reflexivity. Qed.

Example scenario_already_voted :
  option_map rejection_reason
    (match fst (validate basic complete_declaration default_settings 8 (u "pdf-2")
                  (u "poll-1") (u "tok-1") (open_session [earlier_vote] 2)) with
     | Returns r => Some r
     | Raises _ => None
     end)
  = Some (Some ALREADY_VOTED).
Proof. vm_compute. reflexivity. Qed.

Example scenario_token_missing :
  rejection_reason
    (_gate3_verify_token default_settings
       (u "Declaration content without the token") (u "abc-123-xyz"))
  = Some TOKEN_NOT_FOUND /\
  success
    (_gate3_verify_token default_settings
       (u "Declaration content with Security Token: abc-123-xyz") (u "abc-123-xyz"))
  = true.
Proof. split; vm_compute; reflexivity. Qed.

(** The cases of tests/test_validator.py for the two extractors. *)
Example test_extract_afm :
  _extract_afm basic (u "Name: John Doe" ++ [NL] ++ u "AFM: 123456789" ++ [NL]
                      ++ u "Address: Athens") = Some (u "123456789") /\
  _extract_afm basic (u "Ονομα: Γιάννης" ++ [NL] ++ u "ΑΦΜ: 987654321" ++ [NL]
                      ++ u "Διεύθυνση: Αθήνα") = Some (u "987654321") /\
  _extract_afm basic (u "Α.Φ.Μ.: 111222333") = Some (u "111222333") /\
  _extract_afm basic (u "No tax ID in this document") = None /\
  _extract_afm basic (u "AFM: 12345") = None.
Proof. repeat split; vm_compute; reflexivity. Qed.

Example test_extract_vote_choice :
  _extract_vote_choice basic (u "I vote for [Option A] in this election")
  = Some (u "Option A") /\
  _extract_vote_choice basic (u "Εγώ ψηφίζω [Επιλογή Β] σε αυτή την ψηφοφορία")
  = Some (u "Επιλογή Β") /\
  _extract_vote_choice basic (u "vote for [  Multiple Word Choice  ]")
  = Some (u "Multiple Word Choice") /\
  _extract_vote_choice basic (u "This declaration has no vote") = None.
Proof. repeat split; vm_compute; reflexivity. Qed.

(* ------------------------------------------------------------------ *)
(** * A run of [validate], step by step *)
(* ------------------------------------------------------------------ *)

Lemma delete_all_nil (table : list Vote.t) : delete_all [] table = table.
Proof.
  unfold delete_all. cbn [existsb negb].
  induction table as [|v table IH]; simpl; congruence.
Qed.

Lemma delete_all_incl (ids : list N) (table : list Vote.t) (v : Vote.t) :
  In v (delete_all ids table) -> In v table.
Proof. unfold delete_all. intros H. apply filter_In in H. tauto. Qed.

Lemma find_some_in (A : Type) (p : A -> bool) (l : list A) (x : A) :
  find p l = Some x -> In x l /\ p x = true.
Proof. apply find_some. Qed.

Lemma existsb_file_hash_false table h :
  existsb (fun r => str_eqb (Vote.file_hash r) h) table = false <->
  ~ In h (map Vote.file_hash table).
Proof.
  induction table as [|v table IH]; simpl; [tauto|].
  rewrite orb_false_iff, IH. split.
  - intros [Hv Ht] [E|Hin]; [|tauto].
    rewrite E in Hv. assert (str_eqb h h = true) by (apply str_eqb_eq; reflexivity).
    congruence.
  - intros H. split; [|tauto].
    destruct (str_eqb (Vote.file_hash v) h) eqn:E; [|reflexivity].
    apply str_eqb_eq in E. tauto.
Qed.

Section RunFacts.

Variable U : unicode.
Variable L : libraries.
Variable settings : Settings.

Lemma gate4_on_open text poll_id table key :
  _gate4_verify_identity U L settings text poll_id (open_session table key)
  = match _extract_afm U text with
    | None => (Returns afm_not_found, open_session table key)
    | Some afm =>
      if negb (truthy afm) then (Returns afm_not_found, open_session table key)
      else
        let h := _hash_voter_id L settings afm in
        match find (voter_row poll_id h) table with
        | Some existing =>
          if ALLOW_VOTE_UPDATE settings then
            (Returns (with_voter_hash h (accepted (u "Previous vote will be updated"))),
             open_session (delete_all [Vote.id existing] table) key)
          else
            (Returns (with_voter_hash h
                        (rejected ALREADY_VOTED (u "You have already voted in this poll"))),
             open_session table key)
        | None =>
          (Returns (with_voter_hash h (accepted (u "Voter identity verified"))),
           open_session table key)
        end
    end.
Proof.
  unfold _gate4_verify_identity, voter_row.
  destruct (_extract_afm U text) as [afm|]; [|reflexivity].
  destruct (negb (truthy afm)); [reflexivity|].
  unfold bind, query, ret, delete, commit, query_first, db_delete.
  cbn [rows next_id pending_new pending_deleted open_session].
  destruct (find _ table) as [existing|]; [|reflexivity].
  destruct (ALLOW_VOTE_UPDATE settings); reflexivity.
Qed.

Lemma record_vote_on_open utcnow poll_id h file_hash vote_choice table key :
  existsb (fun r => str_eqb (Vote.file_hash r) file_hash) table = false ->
  exists stored,
    _record_vote utcnow poll_id (Some h) file_hash vote_choice (open_session table key)
    = (Returns stored,
       open_session (table ++ [recorded key poll_id h file_hash vote_choice utcnow])
         (key + 1)).
Proof.
  intros H. unfold _record_vote, bind, add, commit, query, ret, db_add.
  cbn [rows next_id pending_new pending_deleted open_session app insert_all
       Vote.file_hash Vote.poll_id Vote.voter_hash Vote.vote_choice Vote.created_at].
  rewrite H. rewrite delete_all_nil. eexists. reflexivity.
Qed.

(** What an accepting run went through, and what it left. *)
Lemma validate_accepts utcnow pdf_bytes poll_id poll_token table key r db' :
  validate U L settings utcnow pdf_bytes poll_id poll_token (open_session table key)
  = (Returns r, db') ->
  success r = true ->
  exists text afm choice table',
    success (_gate1_verify_signature U L settings pdf_bytes) = true /\
    find (fun v => str_eqb (Vote.file_hash v) (_calculate_file_hash L pdf_bytes)) table
    = None /\
    _extract_text L pdf_bytes = Returns text /\
    success (_gate3_verify_token settings text poll_token) = true /\
    _extract_afm U text = Some afm /\ afm <> [] /\
    _extract_vote_choice U text = Some choice /\ choice <> [] /\
    (find (voter_row poll_id (_hash_voter_id L settings afm)) table = None /\
     table' = table
     \/
     ALLOW_VOTE_UPDATE settings = true /\
     exists existing,
       find (voter_row poll_id (_hash_voter_id L settings afm)) table = Some existing /\
       table' = delete_all [Vote.id existing] table) /\
    r = {| success := true; rejection_reason := None;
           message := u "Vote successfully recorded";
           voter_hash := Some (_hash_voter_id L settings afm);
           vote_choice := Some choice;
           file_hash := Some (_calculate_file_hash L pdf_bytes);
           signer_name := signer_name (_gate1_verify_signature U L settings pdf_bytes) |} /\
    db' = open_session
            (table' ++ [recorded key poll_id (_hash_voter_id L settings afm)
                          (_calculate_file_hash L pdf_bytes) choice utcnow])
            (key + 1).
Proof.
  unfold validate. cbv zeta.
  destruct (success (_gate1_verify_signature U L settings pdf_bytes)) eqn:H1;
    cbn [negb].
  2:{ unfold ret. intros E Hs. inversion E; subst. congruence. }
  unfold bind at 1. rewrite gate2_result. unfold query_first.
  cbn [rows open_session].
  destruct (find _ table) as [dup|] eqn:Hq.
  { cbn [success with_file_hash rejected negb]. unfold ret.
    intros E Hs. inversion E; subst. discriminate. }
  cbn [success with_file_hash accepted negb].
  destruct (_extract_text L pdf_bytes) as [text|e] eqn:Ht.
  2:{ unfold ret, pdf_read_error. intros E Hs. inversion E; subst. discriminate. }
  destruct (success (_gate3_verify_token settings text poll_token)) eqn:H3;
    cbn [negb].
  2:{ unfold ret. intros E Hs. inversion E; subst. congruence. }
  unfold bind at 1. rewrite gate4_on_open.
  destruct (_extract_afm U text) as [afm|] eqn:Ha.
  2:{ cbn [success afm_not_found rejected negb]. unfold ret.
      intros E Hs. inversion E; subst. discriminate. }
  destruct (truthy afm) eqn:Hta; cbn [negb].
  2:{ cbn [success afm_not_found rejected negb]. unfold ret.
      intros E Hs. inversion E; subst. discriminate. }
  apply truthy_nonempty in Hta. cbv zeta.
  pose proof (find_none_existsb _ _ Hq) as Hfresh.
  assert (Hfinish : forall table1,
    (forall p, existsb p table = false -> existsb p table1 = false) ->
    forall msg,
    (let gate4_result :=
       with_voter_hash (_hash_voter_id L settings afm) (accepted msg) in
     if negb (success gate4_result) then ret gate4_result
     else
       let not_found :=
         rejected VOTE_CHOICE_NOT_FOUND
           (u "Could not find vote choice in declaration. Expected format: 'vote for [OPTION]'") in
       match _extract_vote_choice U text with
       | None => ret not_found
       | Some vote_choice =>
         if negb (truthy vote_choice) then ret not_found
         else
           let voter_hash := voter_hash gate4_result in
           _record_vote utcnow poll_id voter_hash (_calculate_file_hash L pdf_bytes)
             vote_choice ;;;
           ret {| success := true; rejection_reason := None;
                  message := u "Vote successfully recorded";
                  voter_hash := voter_hash;
                  vote_choice := Some vote_choice;
                  file_hash := Some (_calculate_file_hash L pdf_bytes);
                  signer_name :=
                    signer_name (_gate1_verify_signature U L settings pdf_bytes) |}
       end) (open_session table1 key) = (Returns r, db') ->
    success r = true ->
    exists choice,
      _extract_vote_choice U text = Some choice /\ choice <> [] /\
      r = {| success := true; rejection_reason := None;
             message := u "Vote successfully recorded";
             voter_hash := Some (_hash_voter_id L settings afm);
             vote_choice := Some choice;
             file_hash := Some (_calculate_file_hash L pdf_bytes);
             signer_name :=
               signer_name (_gate1_verify_signature U L settings pdf_bytes) |} /\
      db' = open_session
              (table1 ++ [recorded key poll_id (_hash_voter_id L settings afm)
                            (_calculate_file_hash L pdf_bytes) choice utcnow])
              (key + 1)).
  { intros table1 Hsub msg. cbv zeta.
    cbn [success with_voter_hash accepted negb voter_hash].
    destruct (_extract_vote_choice U text) as [choice|].
    2:{ unfold ret. intros E Hs. inversion E; subst. discriminate. }
    destruct (truthy choice) eqn:Htc; cbn [negb].
    2:{ unfold ret. intros E Hs. inversion E; subst. discriminate. }
    apply truthy_nonempty in Htc.
    destruct (@record_vote_on_open utcnow poll_id (_hash_voter_id L settings afm)
                (_calculate_file_hash L pdf_bytes) choice table1 key
                (Hsub _ Hfresh)) as [stored Hr].
    unfold bind, ret. rewrite Hr. intros E _. inversion E; subst.
    exists choice. auto. }
  destruct (find (voter_row poll_id (_hash_voter_id L settings afm)) table)
    as [existing|] eqn:Hf.
  - destruct (ALLOW_VOTE_UPDATE settings) eqn:Hu.
    + intros E Hs.
      destruct (Hfinish (delete_all [Vote.id existing] table)
                  (fun p Hp => existsb_filter_false p _ table Hp) _ E Hs)
        as (choice & Hc & Hne & Hr & Hdb).
      exists text, afm, choice, (delete_all [Vote.id existing] table).
      repeat (split; [first [reflexivity | assumption]|]).
      split; [right; split; [reflexivity|]; exists existing; auto|]. auto.
    + cbn [success with_voter_hash rejected negb]. unfold ret.
      intros E Hs. inversion E; subst. discriminate.
  - intros E Hs.
    destruct (Hfinish table (fun p Hp => Hp) _ E Hs) as (choice & Hc & Hne & Hr & Hdb).
    exists text, afm, choice, table.
    repeat (split; [first [reflexivity | assumption]|]).
    split; [left; auto|]. auto.
Qed.

End RunFacts.

(** ** Rejecting runs *)

Section RejectFacts.

Variable U : unicode.
Variable L : libraries.
Variable settings : Settings.

(** With the update policy off gate 4 only reads. *)
Lemma gate4_reads_only text poll_id db :
  ALLOW_VOTE_UPDATE settings = false ->
  exists r, _gate4_verify_identity U L settings text poll_id db = (Returns r, db).
Proof.
  intros Hu. unfold _gate4_verify_identity.
  destruct (_extract_afm U text) as [afm|]; [|eexists; reflexivity].
  destruct (negb (truthy afm)); [eexists; reflexivity|].
  unfold bind, query, ret.
  destruct (query_first _ db); [rewrite Hu|]; eexists; reflexivity.
Qed.

(** What a rejecting run leaves: the session it found, or, under the update
    policy, that session less the voter's earlier row. *)
Lemma validate_rejects utcnow pdf_bytes poll_id poll_token table key r db' :
  validate U L settings utcnow pdf_bytes poll_id poll_token (open_session table key)
  = (Returns r, db') ->
  success r = false ->
  db' = open_session table key \/
  (ALLOW_VOTE_UPDATE settings = true /\
   exists existing, In existing table /\
     db' = open_session (delete_all [Vote.id existing] table) key).
Proof.
  unfold validate. cbv zeta.
  destruct (negb (success (_gate1_verify_signature U L settings pdf_bytes))).
  { unfold ret. intros E _. inversion E. auto. }
  unfold bind at 1. rewrite gate2_result.
  destruct (negb (success _)).
  { unfold ret. intros E _. inversion E. auto. }
  destruct (_extract_text L pdf_bytes) as [text|e].
  2:{ unfold ret. intros E _. inversion E. auto. }
  destruct (negb (success (_gate3_verify_token settings text poll_token))).
  { unfold ret. intros E _. inversion E. auto. }
  unfold bind at 1. rewrite gate4_on_open.
  assert (Hrest : forall g4 table1,
    (if negb (success g4) then ret g4
     else
       match _extract_vote_choice U text with
       | None =>
         ret (rejected VOTE_CHOICE_NOT_FOUND
                (u "Could not find vote choice in declaration. Expected format: 'vote for [OPTION]'"))
       | Some vote_choice =>
         if negb (truthy vote_choice)
         then
           ret (rejected VOTE_CHOICE_NOT_FOUND
                  (u "Could not find vote choice in declaration. Expected format: 'vote for [OPTION]'"))
         else
           _record_vote utcnow poll_id (voter_hash g4)
             (_calculate_file_hash L pdf_bytes) vote_choice ;;;
           ret {| success := true; rejection_reason := None;
                  message := u "Vote successfully recorded";
                  voter_hash := voter_hash g4;
                  vote_choice := Some vote_choice;
                  file_hash := Some (_calculate_file_hash L pdf_bytes);
                  signer_name :=
                    signer_name (_gate1_verify_signature U L settings pdf_bytes) |}
       end) (open_session table1 key) = (Returns r, db') ->
    success r = false -> db' = open_session table1 key).
  { intros g4 table1.
    destruct (negb (success g4)).
    { unfold ret. intros E _. inversion E. reflexivity. }
    destruct (_extract_vote_choice U text) as [choice|].
    2:{ unfold ret. intros E _. inversion E. reflexivity. }
    destruct (negb (truthy choice)).
    { unfold ret. intros E _. inversion E. reflexivity. }
    unfold bind, ret.
    destruct (_record_vote _ _ _ _ _ _) as [[v|e] db2]; intros E Hs;
      inversion E; subst; discriminate. }
  destruct (_extract_afm U text) as [afm|]; [|intros E Hs; left; eapply Hrest; eauto].
  destruct (negb (truthy afm)); [intros E Hs; left; eapply Hrest; eauto|].
  cbv zeta.
  destruct (find _ table) as [existing|] eqn:Hf;
    [|intros E Hs; left; eapply Hrest; eauto].
  destruct (ALLOW_VOTE_UPDATE settings);
    [|intros E Hs; left; eapply Hrest; eauto].
  intros E Hs. right. split; [reflexivity|].
  exists existing. split; [apply find_some in Hf; tauto|].
  eapply Hrest; eauto.
Qed.

End RejectFacts.

(** ** Lists without repetition *)

Lemma NoDup_map_filter (A B : Type) (f : A -> B) (q : A -> bool) (l : list A) :
  NoDup (map f l) -> NoDup (map f (filter q l)).
Proof.
  induction l as [|x l IH]; simpl; intros H; [constructor|].
  inversion H as [|y ys Hn Hd]; subst.
  destruct (q x); simpl; [|auto].
  constructor; [|auto].
  intros Hin. apply Hn. apply in_map_iff in Hin as (z & Ez & Hz).
  apply filter_In in Hz as [Hz _]. rewrite <- Ez. apply in_map. exact Hz.
Qed.

Lemma NoDup_map_same (A B : Type) (f : A -> B) (l : list A) (x y : A) :
  NoDup (map f l) -> In x l -> In y l -> f x = f y -> x = y.
Proof.
  induction l as [|z l IH]; simpl; intros H Hx Hy E; [destruct Hx|].
  inversion H as [|w ws Hn Hd]; subst.
  destruct Hx as [->|Hx], Hy as [->|Hy]; auto.
  - exfalso. apply Hn. rewrite E. apply in_map. exact Hy.
  - exfalso. apply Hn. rewrite <- E. apply in_map. exact Hx.
Qed.

Lemma NoDup_snoc (A : Type) (l : list A) (x : A) :
  NoDup l -> ~ In x l -> NoDup (l ++ [x]).
Proof.
  intros Hl Hx. apply NoDup_app; [exact Hl | repeat constructor; auto |].
  intros a Ha [<-|[]]. exact (Hx Ha).
Qed.

Lemma voter_row_key poll_id h v :
  voter_row poll_id h v = true <-> vote_key v = (poll_id, h).
Proof.
  unfold voter_row, vote_key. rewrite andb_true_iff, !str_eqb_eq.
  split; [intros [-> ->]; reflexivity | intros E; inversion E; auto].
Qed.

Lemma find_none_all (A : Type) (p : A -> bool) (l : list A) (x : A) :
  find p l = None -> In x l -> p x = false.
Proof. intros H Hin. exact (find_none p l H x Hin). Qed.

Lemma delete_all_drops id0 table v :
  In v (delete_all [id0] table) -> Vote.id v <> id0.
Proof.
  unfold delete_all. intros H. apply filter_In in H as [_ H].
  cbn [existsb] in H. rewrite orb_false_r in H.
  apply negb_true_iff in H. apply N.eqb_neq in H. exact H.
Qed.

(* ------------------------------------------------------------------ *)
(** * What a run does to the table *)
(* ------------------------------------------------------------------ *)

(** X1.  An accepting run of [validate] on a session with nothing pending
    ends with exactly one new row, appended to the table: it carries the
    poll identifier of the call, the voter hash, file hash and choice of the
    returned result, the clock value as [created_at] and the next key as
    [id].  Nothing else is added; rows are removed only under the update
    policy; and the session is left with nothing pending. *)
Theorem validate_accepted_records (U : unicode) (L : libraries) (settings : Settings)
    (utcnow : N) (pdf_bytes : bytes) (poll_id poll_token : pystr)
    (table : list Vote.t) (key : N) (r : ValidationResult) (db' : Session) :
  validate U L settings utcnow pdf_bytes poll_id poll_token (open_session table key)
  = (Returns r, db') ->
  success r = true ->
  exists h choice table',
    voter_hash r = Some h /\ vote_choice r = Some choice /\
    file_hash r = Some (_calculate_file_hash L pdf_bytes) /\
    db' = open_session
            (table' ++ [recorded key poll_id h (_calculate_file_hash L pdf_bytes)
                          choice utcnow])
            (key + 1) /\
    (forall v, In v table' -> In v table) /\
    (ALLOW_VOTE_UPDATE settings = false -> table' = table).
Proof.
  intros E Hs.
  destruct (@validate_accepts U L settings _ _ _ _ _ _ _ _ E Hs)
    as (text & afm & choice & table' & _ & _ & _ & _ & _ & _ & _ & _ & Ht & Hr & Hdb).
  exists (_hash_voter_id L settings afm), choice, table'.
  subst r. cbn [voter_hash vote_choice file_hash].
  repeat (split; [reflexivity|]). split; [exact Hdb|].
  destruct Ht as [[_ ->]|[Hu (existing & _ & ->)]].
  - auto.
  - split; [intros v Hv; eapply delete_all_incl; eauto | congruence].
Qed.

Lemma validate_accepted_records_witness :
  exists h choice table',
    voter_hash sample_result = Some h /\ vote_choice sample_result = Some choice /\
    file_hash sample_result = Some (_calculate_file_hash complete_declaration (u "pdf-1")) /\
    open_session [sample_row] 2
    = open_session
        (table' ++ [recorded 1 (u "poll-1") h
                      (_calculate_file_hash complete_declaration (u "pdf-1")) choice 7])
        (1 + 1) /\
    (forall v, In v table' -> In v []) /\
    (ALLOW_VOTE_UPDATE default_settings = false -> table' = []).
Proof.
  apply (@validate_accepted_records basic complete_declaration default_settings 7
           (u "pdf-1") (u "poll-1") (u "tok-1") [] 1 sample_result
           (open_session [sample_row] 2)); vm_compute; reflexivity.
Defined.

(** ** One request after another *)

Section SequenceFacts.

Variable U : unicode.
Variable L : libraries.
Variable settings : Settings.

(** A document that passes gate 1 and whose file hash is held by a
    committed row is rejected by gate 2, and nothing is written. *)
Lemma validate_duplicate utcnow pdf_bytes poll_id poll_token db row :
  success (_gate1_verify_signature U L settings pdf_bytes) = true ->
  In row (rows db) ->
  Vote.file_hash row = _calculate_file_hash L pdf_bytes ->
  validate U L settings utcnow pdf_bytes poll_id poll_token db
  = (Returns
       (with_file_hash (_calculate_file_hash L pdf_bytes)
          (rejected DUPLICATE_FILE (u "This declaration has already been submitted"))),
     db).
Proof.
  intros H1 Hin Hrow. unfold validate. cbv zeta. rewrite H1. cbn [negb].
  unfold bind at 1. rewrite gate2_result. unfold query_first.
  match goal with
  | |- context [find ?p ?l] => destruct (find p l) as [found|] eqn:Hf
  end; [reflexivity|].
  exfalso. pose proof (find_none_all _ _ row Hf Hin) as Hn.
  cbv beta in Hn. rewrite Hrow, str_eqb_refl in Hn. discriminate Hn.
Qed.

(** With the update policy off a run only ever appends to the table. *)
Lemma validate_appends utcnow pdf_bytes poll_id poll_token table key :
  ALLOW_VOTE_UPDATE settings = false ->
  exists extra key',
    snd (validate U L settings utcnow pdf_bytes poll_id poll_token
           (open_session table key))
    = open_session (table ++ extra) key'.
Proof.
  intros Hu.
  destruct (validate_returns_same U L settings pdf_bytes poll_id poll_token table)
    as [r Hr].
  destruct (Hr utcnow key) as [db' E]. rewrite E. cbn [snd].
  destruct (success r) eqn:Hs.
  - destruct (@validate_accepts U L settings _ _ _ _ _ _ _ _ E Hs)
      as (text & afm & choice & table' & _ & _ & _ & _ & _ & _ & _ & _ & Ht & _ & ->).
    destruct Ht as [[_ ->]|[Hu' _]]; [|congruence].
    eexists _, _. reflexivity.
  - destruct (@validate_rejects U L settings _ _ _ _ _ _ _ _ E Hs)
      as [->|[Hu' _]]; [|congruence].
    exists [], key. rewrite app_nil_r. reflexivity.
Qed.

(** So does any sequence of requests: the rows found at the start are
    still there, in their places, when the last request has been served. *)
Lemma served_appends requests : forall table key,
  ALLOW_VOTE_UPDATE settings = false ->
  exists extra key',
    served U L settings requests (open_session table key)
    = open_session (table ++ extra) key'.
Proof.
  induction requests as [|q requests IH]; intros table key Hu.
  - exists [], key. rewrite app_nil_r. reflexivity.
  - cbn [served].
    destruct (validate_appends (request_utcnow q) (request_pdf_bytes q)
                (request_poll_id q) (request_poll_token q) table key Hu)
      as (extra & key' & ->).
    unfold next_session. cbn [rows next_id open_session].
    destruct (IH (table ++ extra) key' Hu) as (extra2 & key2 & E).
    exists (extra ++ extra2), key2. rewrite app_assoc. exact E.
Qed.

End SequenceFacts.

(** X2.  Replay is refused.  Once a document has been accepted, the run of
    [validate] made next on the same bytes, for whatever poll, token and
    time, is rejected with DUPLICATE_FILE and leaves the session as it was.
    With the update policy off the same is true after any sequence of
    requests served in between. *)
Theorem validate_replay_rejected (U : unicode) (L : libraries) (settings : Settings)
    (utcnow : N) (pdf_bytes : bytes) (poll_id poll_token : pystr)
    (table : list Vote.t) (key : N) (r : ValidationResult) (db' : Session) :
  validate U L settings utcnow pdf_bytes poll_id poll_token (open_session table key)
  = (Returns r, db') ->
  success r = true ->
  forall requests,
    requests = [] \/ ALLOW_VOTE_UPDATE settings = false ->
    forall utcnow2 poll_id2 poll_token2,
      validate U L settings utcnow2 pdf_bytes poll_id2 poll_token2
        (served U L settings requests db')
      = (Returns
           (with_file_hash (_calculate_file_hash L pdf_bytes)
              (rejected DUPLICATE_FILE (u "This declaration has already been submitted"))),
         served U L settings requests db').
Proof.
  intros E Hs requests Hcase utcnow2 poll_id2 poll_token2.
  destruct (@validate_accepts U L settings _ _ _ _ _ _ _ _ E Hs)
    as (text & afm & choice & table' & H1 & _ & _ & _ & _ & _ & _ & _ & _ & _ & Hdb).
  apply validate_duplicate
    with (row := recorded key poll_id (_hash_voter_id L settings afm)
                   (_calculate_file_hash L pdf_bytes) choice utcnow);
    [exact H1| |reflexivity].
  subst db'. destruct Hcase as [->|Hu].
  - cbn [served rows open_session]. apply in_or_app. right. left. reflexivity.
  - destruct (@served_appends U L settings requests
                (table' ++ [recorded key poll_id (_hash_voter_id L settings afm)
                              (_calculate_file_hash L pdf_bytes) choice utcnow])
                (key + 1)%N Hu) as (extra & key' & ->).
    cbn [rows open_session]. apply in_or_app. left.
    apply in_or_app. right. left. reflexivity.
Qed.

Lemma validate_replay_rejected_witness :
  validate basic two_declarations default_settings 9 (u "pdf-1")
    (u "poll-2") (u "another token")
    (served basic two_declarations default_settings [other_request]
       (open_session [sample_row] 2))
  = (Returns
       (with_file_hash (_calculate_file_hash two_declarations (u "pdf-1"))
          (rejected DUPLICATE_FILE (u "This declaration has already been submitted"))),
     served basic two_declarations default_settings [other_request]
       (open_session [sample_row] 2)).
Proof.
  refine (@validate_replay_rejected basic two_declarations default_settings 7
            (u "pdf-1") (u "poll-1") (u "tok-1") [] 1 sample_result
            (open_session [sample_row] 2) _ _ [other_request] (or_intror eq_refl)
            9%N (u "poll-2") (u "another token"));
    vm_compute; reflexivity.
Defined.

(** The request served in between was accepted, and has left its row. *)
Example served_other_request :
  served basic two_declarations default_settings [other_request]
    (open_session [sample_row] 2)
  = open_session [sample_row; other_row] 3.
Proof. vm_compute. reflexivity. Qed.

(** Under the update policy the row of an accepted document does not stay:
    a later document of the same voter replaces it, and the bytes accepted
    first are then accepted once more. *)
Example replay_after_update_accepted :
  let run utcnow pdf_bytes db :=
    validate basic complete_declaration update_settings utcnow pdf_bytes
      (u "poll-1") (u "tok-1") db in
  let db1 := snd (run 7%N (u "pdf-1") (open_session [] 1)) in
  let db2 := snd (run 8%N (u "pdf-2") db1) in
  option_map success
    (match fst (run 7%N (u "pdf-1") (open_session [] 1)) with
     | Returns r => Some r | Raises _ => None end) = Some true /\
  option_map success
    (match fst (run 8%N (u "pdf-2") db1) with
     | Returns r => Some r | Raises _ => None end) = Some true /\
  map Vote.file_hash (rows db2) = [u "pdf-2"] /\
  option_map success
    (match fst (run 9%N (u "pdf-1") db2) with
     | Returns r => Some r | Raises _ => None end) = Some true.
Proof. repeat split; vm_compute; reflexivity. Qed.

(** X3.  With the update policy off, a run of [validate] that returns a
    rejection has written nothing: the session, committed rows and pending
    changes alike, is the one it was given. *)
Theorem validate_rejection_keeps_store (U : unicode) (L : libraries)
    (settings : Settings) (utcnow : N) (pdf_bytes : bytes)
    (poll_id poll_token : pystr) (db db' : Session) (r : ValidationResult) :
  ALLOW_VOTE_UPDATE settings = false ->
  validate U L settings utcnow pdf_bytes poll_id poll_token db = (Returns r, db') ->
  success r = false ->
  db' = db.
Proof.
  intros Hu. unfold validate. cbv zeta.
  destruct (negb (success (_gate1_verify_signature U L settings pdf_bytes))).
  { unfold ret. intros E _. inversion E. reflexivity. }
  unfold bind at 1. rewrite gate2_result.
  destruct (negb (success _)).
  { unfold ret. intros E _. inversion E. reflexivity. }
  destruct (_extract_text L pdf_bytes) as [text|e].
  2:{ unfold ret. intros E _. inversion E. reflexivity. }
  destruct (negb (success (_gate3_verify_token settings text poll_token))).
  { unfold ret. intros E _. inversion E. reflexivity. }
  unfold bind at 1.
  destruct (gate4_reads_only U L settings text poll_id db Hu) as [g4 E4].
  rewrite E4.
  destruct (negb (success g4)).
  { unfold ret. intros E _. inversion E. reflexivity. }
  destruct (_extract_vote_choice U text) as [choice|].
  2:{ unfold ret. intros E _. inversion E. reflexivity. }
  destruct (negb (truthy choice)).
  { unfold ret. intros E _. inversion E. reflexivity. }
  unfold bind, ret.
  destruct (_record_vote _ _ _ _ _ db) as [[v|e] db2]; intros E Hs;
    inversion E; subst; discriminate.
Qed.

Lemma validate_rejection_keeps_store_witness :
  open_session [earlier_vote] 2 = open_session [earlier_vote] 2.
Proof.
  apply (@validate_rejection_keeps_store basic declaration_without_choice
           default_settings 7 [] (u "poll-1") (u "tok-1")
           (open_session [earlier_vote] 2) (open_session [earlier_vote] 2)
           (with_voter_hash (u "123456789" ++ SALT_KEY default_settings)
              (rejected ALREADY_VOTED (u "You have already voted in this poll"))));
    vm_compute; reflexivity.
Defined.

(** ** The invariants of the table *)

Lemma keys_below_delete key ids table :
  keys_below key table -> keys_below key (delete_all ids table).
Proof.
  intros [Hn Hb]. split.
  - apply NoDup_map_filter. exact Hn.
  - intros v Hv. apply Hb. eapply delete_all_incl; eauto.
Qed.

Lemma keys_below_record key table row :
  keys_below key table -> Vote.id row = key ->
  keys_below (key + 1) (table ++ [row]).
Proof.
  intros [Hn Hb] Hid. split.
  - rewrite map_app. cbn [map]. apply NoDup_snoc; [exact Hn|].
    intros Hin. apply in_map_iff in Hin as (v & Ev & Hv).
    apply Hb in Hv. lia.
  - intros v Hv. apply in_app_or in Hv as [Hv|[<-|[]]].
    + apply Hb in Hv. lia.
    + lia.
Qed.

Section InvariantFacts.

Variable U : unicode.
Variable L : libraries.
Variable settings : Settings.

(** After an accepting run no row but the new one is held by the voter in
    that poll, provided each voter held at most one before. *)
Lemma accepted_voter_absent poll_id h table table' :
  one_vote_each table ->
  (find (voter_row poll_id h) table = None /\ table' = table \/
   ALLOW_VOTE_UPDATE settings = true /\
   exists existing,
     find (voter_row poll_id h) table = Some existing /\
     table' = delete_all [Vote.id existing] table) ->
  forall v, In v table' -> vote_key v <> (poll_id, h).
Proof.
  intros Hone [[Hf ->]|[_ (existing & Hf & ->)]] v Hv Hk.
  - apply voter_row_key in Hk.
    rewrite (find_none_all _ _ v Hf Hv) in Hk. discriminate.
  - apply find_some in Hf as [Hin Hrow]. apply voter_row_key in Hrow.
    pose proof (@delete_all_drops _ _ _ Hv) as Hid.
    apply delete_all_incl in Hv.
    assert (v = existing)
      by (eapply (@NoDup_map_same _ _ vote_key table); eauto; congruence).
    subst v. apply Hid. reflexivity.
Qed.

End InvariantFacts.

(** X4.  Whatever the document, the poll, the token and the policy, a run
    of [validate] keeps the table well formed: if no two rows share a file
    hash, no two rows share a (poll, voter hash) pair and every key is below
    the next one to be issued, the same holds of the table the run leaves,
    and the session still has nothing pending. *)
Theorem validate_keeps_table_invariants (U : unicode) (L : libraries)
    (settings : Settings) (utcnow : N) (pdf_bytes : bytes)
    (poll_id poll_token : pystr) (table : list Vote.t) (key : N) :
  unique_files table -> one_vote_each table -> keys_below key table ->
  exists r table' key',
    validate U L settings utcnow pdf_bytes poll_id poll_token (open_session table key)
    = (Returns r, open_session table' key') /\
    unique_files table' /\ one_vote_each table' /\ keys_below key' table'.
Proof.
  intros Hfiles Hone Hkeys.
  destruct (validate_returns_same U L settings pdf_bytes poll_id poll_token table)
    as [r Hr].
  destruct (Hr utcnow key) as [db' E]. exists r.
  destruct (success r) eqn:Hs.
  - destruct (@validate_accepts U L settings _ _ _ _ _ _ _ _ E Hs)
      as (text & afm & choice & table' & _ & Hq & _ & _ & _ & _ & _ & _
          & Ht & _ & Hdb).
    eexists _, _. split; [rewrite E, Hdb; reflexivity|].
    assert (Hsub : forall v, In v table' -> In v table).
    { destruct Ht as [[_ ->]|[_ (existing & _ & ->)]]; [auto|].
      intros v Hv. eapply delete_all_incl; eauto. }
    assert (Hfiles' : unique_files table').
    { destruct Ht as [[_ ->]|[_ (existing & _ & ->)]]; [exact Hfiles|].
      apply NoDup_map_filter. exact Hfiles. }
    assert (Hone' : one_vote_each table').
    { destruct Ht as [[_ ->]|[_ (existing & _ & ->)]]; [exact Hone|].
      apply NoDup_map_filter. exact Hone. }
    assert (Hkeys' : keys_below key table').
    { destruct Ht as [[_ ->]|[_ (existing & _ & ->)]]; [exact Hkeys|].
      apply keys_below_delete. exact Hkeys. }
    split; [|split].
    + unfold unique_files. rewrite map_app. cbn [map recorded Vote.file_hash].
      apply NoDup_snoc; [exact Hfiles'|].
      intros Hin. apply in_map_iff in Hin as (v & Ev & Hv).
      apply Hsub in Hv. pose proof (find_none_all _ _ v Hq Hv) as Hn.
      cbv beta in Hn. rewrite Ev in Hn.
      assert (Hself : str_eqb (_calculate_file_hash L pdf_bytes)
                        (_calculate_file_hash L pdf_bytes) = true)
        by (apply str_eqb_eq; reflexivity).
      congruence.
    + unfold one_vote_each. rewrite map_app. cbn [map].
      apply NoDup_snoc; [exact Hone'|].
      intros Hin. apply in_map_iff in Hin as (v & Ev & Hv).
      apply (@accepted_voter_absent settings poll_id (_hash_voter_id L settings afm)
               table table' Hone Ht v Hv).
      exact Ev.
    + apply keys_below_record; [exact Hkeys' | reflexivity].
  - destruct (@validate_rejects U L settings _ _ _ _ _ _ _ _ E Hs)
      as [Hdb|[_ (existing & _ & Hdb)]].
    + exists table, key. rewrite E, Hdb. auto.
    + eexists _, key. split; [rewrite E, Hdb; reflexivity|].
      split; [apply NoDup_map_filter; exact Hfiles|].
      split; [apply NoDup_map_filter; exact Hone|].
      apply keys_below_delete. exact Hkeys.
Qed.

Lemma validate_keeps_table_invariants_witness :
  exists r table' key',
    validate basic complete_declaration update_settings 9 (u "pdf-2")
      (u "poll-1") (u "tok-1") (open_session [earlier_vote] 2)
    = (Returns r, open_session table' key') /\
    unique_files table' /\ one_vote_each table' /\ keys_below key' table'.
Proof.
  apply (@validate_keeps_table_invariants basic complete_declaration update_settings
           9 (u "pdf-2") (u "poll-1") (u "tok-1") [earlier_vote] 2).
  - repeat constructor. intros [].
  - repeat constructor. intros [].
  - split; [repeat constructor; intros []|].
    intros v [<-|[]]. reflexivity.
Defined.

(** X5.  One vote per voter and poll, with the update policy off: after a
    document of a voter has been accepted in a poll, no later run for that
    poll returns an acceptance carrying the same voter hash, whatever the
    document, the token and the time, and whatever requests have been served
    in between. *)
Theorem validate_one_vote_per_voter (U : unicode) (L : libraries)
    (settings : Settings) (utcnow : N) (pdf_bytes : bytes)
    (poll_id poll_token : pystr) (table : list Vote.t) (key : N)
    (r : ValidationResult) (db' : Session) :
  ALLOW_VOTE_UPDATE settings = false ->
  validate U L settings utcnow pdf_bytes poll_id poll_token (open_session table key)
  = (Returns r, db') ->
  success r = true ->
  forall requests utcnow2 pdf_bytes2 poll_token2 r2 db2,
    validate U L settings utcnow2 pdf_bytes2 poll_id poll_token2
      (served U L settings requests db')
    = (Returns r2, db2) ->
    success r2 = true ->
    exists h h2,
      voter_hash r = Some h /\ voter_hash r2 = Some h2 /\ str_eqb h h2 = false.
Proof.
  intros Hu E Hs requests utcnow2 pdf_bytes2 poll_token2 r2 db2 E2 Hs2.
  destruct (@validate_accepts U L settings _ _ _ _ _ _ _ _ E Hs)
    as (text & afm & choice & table' & _ & _ & _ & _ & _ & _ & _ & _ & _ & Hr & Hdb).
  subst db'.
  destruct (@served_appends U L settings requests
              (table' ++ [recorded key poll_id (_hash_voter_id L settings afm)
                            (_calculate_file_hash L pdf_bytes) choice utcnow])
              (key + 1)%N Hu) as (extra & key' & Hserved).
  rewrite Hserved in E2.
  destruct (@validate_accepts U L settings _ _ _ _ _ _ _ _ E2 Hs2)
    as (text2 & afm2 & choice2 & table2 & _ & _ & _ & _ & _ & _ & _ & _ & Ht2 & Hr2 & _).
  destruct Ht2 as [[Hf2 _]|[Hu2 _]]; [|congruence].
  subst r r2. cbn [voter_hash].
  exists (_hash_voter_id L settings afm), (_hash_voter_id L settings afm2).
  split; [reflexivity|]. split; [reflexivity|].
  pose proof (find_none_all _ _
    (recorded key poll_id (_hash_voter_id L settings afm)
       (_calculate_file_hash L pdf_bytes) choice utcnow) Hf2) as Hn.
  unfold voter_row in Hn. cbn [recorded Vote.poll_id Vote.voter_hash] in Hn.
  rewrite str_eqb_refl in Hn. cbn [andb] in Hn. apply Hn.
  apply in_or_app. left. apply in_or_app. right. left. reflexivity.
Qed.

(** The voter of pdf-1 has been accepted; a request of another voter is
    served; a second document of the first voter, pdf-2, is then turned
    down, and the only acceptance to be had is one with another hash. *)
Lemma validate_one_vote_per_voter_witness :
  exists h h2,
    voter_hash sample_result = Some h /\ voter_hash other_result = Some h2 /\
    str_eqb h h2 = false.
Proof.
  apply (@validate_one_vote_per_voter basic two_declarations default_settings 7
           (u "pdf-1") (u "poll-1") (u "tok-1") [] 1 sample_result
           (open_session [sample_row] 2) eq_refl)
    with (requests := [{| request_utcnow := 8; request_pdf_bytes := u "pdf-2";
                          request_poll_id := u "poll-1";
                          request_poll_token := u "tok-1" |}])
         (utcnow2 := 9%N) (pdf_bytes2 := u "pdf-3") (poll_token2 := u "tok-2")
         (db2 := open_session
                   [sample_row;
                    recorded 2 (u "poll-1") (u "987654321" ++ SALT_KEY default_settings)
                      (u "pdf-3") (u "Option A") 9] 3);
    vm_compute; reflexivity.
Defined.

Lemma filter_none (A : Type) (p : A -> bool) (l : list A) :
  (forall x, In x l -> p x = false) -> filter p l = [].
Proof.
  induction l as [|x l IH]; intros H; [reflexivity|].
  simpl. rewrite (H x (or_introl eq_refl)). apply IH.
  intros y Hy. apply H. right. exact Hy.
Qed.

(** X6.  After an accepted vote the voter holds exactly one row in that
    poll, the one just recorded: under the update policy the earlier row is
    gone, and without it there was none.  (The table is assumed to hold at
    most one row per voter and poll to begin with.) *)
Theorem validate_leaves_one_row (U : unicode) (L : libraries) (settings : Settings)
    (utcnow : N) (pdf_bytes : bytes) (poll_id poll_token : pystr)
    (table : list Vote.t) (key : N) (r : ValidationResult) (db' : Session) :
  one_vote_each table ->
  validate U L settings utcnow pdf_bytes poll_id poll_token (open_session table key)
  = (Returns r, db') ->
  success r = true ->
  exists h choice,
    voter_hash r = Some h /\ vote_choice r = Some choice /\
    filter (voter_row poll_id h) (rows db')
    = [recorded key poll_id h (_calculate_file_hash L pdf_bytes) choice utcnow].
Proof.
  intros Hone E Hs.
  destruct (@validate_accepts U L settings _ _ _ _ _ _ _ _ E Hs)
    as (text & afm & choice & table' & _ & _ & _ & _ & _ & _ & _ & _ & Ht & Hr & Hdb).
  exists (_hash_voter_id L settings afm), choice.
  subst r db'. cbn [voter_hash vote_choice rows open_session].
  split; [reflexivity|]. split; [reflexivity|].
  rewrite filter_app. rewrite filter_none.
  - cbn [filter app].
    assert (Hrow : voter_row poll_id (_hash_voter_id L settings afm)
                     (recorded key poll_id (_hash_voter_id L settings afm)
                        (_calculate_file_hash L pdf_bytes) choice utcnow) = true)
      by (apply voter_row_key; reflexivity).
    rewrite Hrow. reflexivity.
  - intros v Hv.
    destruct (voter_row poll_id (_hash_voter_id L settings afm) v) eqn:Hrow;
      [|reflexivity].
    apply voter_row_key in Hrow. exfalso.
    exact (@accepted_voter_absent settings poll_id (_hash_voter_id L settings afm)
             table table' Hone Ht v Hv Hrow).
Qed.

Lemma validate_leaves_one_row_witness :
  exists h choice,
    voter_hash
      {| success := true; rejection_reason := None;
         message := u "Vote successfully recorded";
         voter_hash := Some (u "123456789" ++ SALT_KEY default_settings);
         vote_choice := Some (u "Option B");
         file_hash := Some (u "pdf-2");
         signer_name := Some (u "APOSTILLE") |} = Some h /\
    vote_choice
      {| success := true; rejection_reason := None;
         message := u "Vote successfully recorded";
         voter_hash := Some (u "123456789" ++ SALT_KEY default_settings);
         vote_choice := Some (u "Option B");
         file_hash := Some (u "pdf-2");
         signer_name := Some (u "APOSTILLE") |} = Some choice /\
    filter (voter_row (u "poll-1") h)
      (rows (open_session
               [recorded 2 (u "poll-1") (u "123456789" ++ SALT_KEY default_settings)
                  (u "pdf-2") (u "Option B") 9] 3))
    = [recorded 2 (u "poll-1") h (_calculate_file_hash complete_declaration (u "pdf-2"))
         choice 9].
Proof.
  apply (@validate_leaves_one_row basic complete_declaration update_settings 9
           (u "pdf-2") (u "poll-1") (u "tok-1") [earlier_vote] 2).
  - repeat constructor. intros [].
  - vm_compute. reflexivity.
  - reflexivity.
Defined.

(** X7.  A document [validate] accepts as a vote also passes
    [validate_identity], which returns the same voter hash and the same
    signer name (and neither choice nor file hash). *)
Theorem validate_implies_identity (U : unicode) (L : libraries) (settings : Settings)
    (utcnow : N) (pdf_bytes : bytes) (poll_id poll_token : pystr)
    (table : list Vote.t) (key : N) (r : ValidationResult) (db' : Session) :
  validate U L settings utcnow pdf_bytes poll_id poll_token (open_session table key)
  = (Returns r, db') ->
  success r = true ->
  validate_identity U L settings pdf_bytes
  = {| success := true; rejection_reason := None;
       message := u "Identity verified successfully";
       voter_hash := voter_hash r;
       vote_choice := None; file_hash := None;
       signer_name := signer_name r |}.
Proof.
  intros E Hs.
  destruct (@validate_accepts U L settings _ _ _ _ _ _ _ _ E Hs)
    as (text & afm & choice & table' & H1 & _ & Ht & _ & Ha & Hne & _ & _ & _ & Hr & _).
  unfold validate_identity. cbv zeta. rewrite H1, Ht, Ha. cbn [negb].
  apply truthy_nonempty in Hne. rewrite Hne. cbn [negb].
  subst r. reflexivity.
Qed.

Lemma validate_implies_identity_witness :
  validate_identity basic complete_declaration default_settings (u "pdf-1")
  = {| success := true; rejection_reason := None;
       message := u "Identity verified successfully";
       voter_hash := voter_hash sample_result;
       vote_choice := None; file_hash := None;
       signer_name := signer_name sample_result |}.
Proof.
  apply (@validate_implies_identity basic complete_declaration default_settings 7
           (u "pdf-1") (u "poll-1") (u "tok-1") [] 1 sample_result
           (open_session [sample_row] 2)); vm_compute; reflexivity.
Defined.

(* ------------------------------------------------------------------ *)
(** * Gate 1: which signature decides *)
(* ------------------------------------------------------------------ *)

Section ScanFacts.

Variable U : unicode.
Variable settings : Settings.

(** The loop stops at the first valid, intact signature whose signer passes
    the test; what comes after it is not looked at. *)
Lemma scan_stops_at_allowed before cert after : forall found,
  existsb raises_other before = false ->
  forallb (fun name => negb (_is_allowed_signer U settings name))
    (candidate_signers before) = true ->
  _is_allowed_signer U settings (_extract_signer_name cert) = true ->
  scan_signatures U settings (before ++ Status true true (Some cert) :: after) found
  = Returns (Some (_extract_signer_name cert),
             found ++ candidate_signers before ++ [_extract_signer_name cert]).
Proof.
  unfold candidate_signers.
  induction before as [|sig before IH]; intros found Hex Hall Hok.
  - cbn [app scan_signatures andb flat_map]. rewrite Hok. reflexivity.
  - cbn [existsb] in Hex. apply orb_false_elim in Hex as [Hsig Hex].
    cbn [flat_map] in Hall. rewrite forallb_app in Hall.
    apply andb_prop in Hall as [Hhead Hall].
    cbn [app scan_signatures flat_map].
    destruct sig as [valid intact [c|]| |e]; try discriminate.
    + destruct valid, intact; cbn [andb]; try (apply IH; assumption).
      cbn [forallb] in Hhead. rewrite andb_true_r in Hhead.
      apply negb_true_iff in Hhead. rewrite Hhead.
      rewrite IH by assumption. rewrite <- !app_assoc. reflexivity.
    + destruct valid, intact; cbn [andb]; apply IH; assumption.
    + apply IH; assumption.
Qed.

(** A signer the loop ends on is a candidate of the document and passes
    the test. *)
Lemma scan_found_is_candidate sigs : forall found name found',
  scan_signatures U settings sigs found = Returns (Some name, found') ->
  In name (candidate_signers sigs) /\ _is_allowed_signer U settings name = true.
Proof.
  unfold candidate_signers.
  induction sigs as [|sig sigs IH]; intros found name found' H;
    cbn [scan_signatures] in H; [discriminate|].
  cbn [flat_map].
  destruct sig as [valid intact [c|]| |e]; try discriminate.
  - destruct valid, intact; cbn [andb] in H;
      try (destruct (IH _ _ _ H); split; [assumption|assumption]).
    destruct (_is_allowed_signer U settings (_extract_signer_name c)) eqn:Hc.
    + inversion H; subst. split; [left; reflexivity | exact Hc].
    + destruct (IH _ _ _ H) as [Hin Hok]. split; [right; exact Hin | exact Hok].
  - destruct valid, intact; cbn [andb] in H; eapply IH; eauto.
  - eapply IH; eauto.
Qed.

End ScanFacts.



(** X9.  Gate 1 accepts only on evidence: when it succeeds, the signer name
    it reports is non-empty, is the name extracted from the certificate of
    a valid and intact signature of the document, and passes the allow-list
    test. *)
Theorem gate1_accepts_only_allowed (U : unicode) (L : libraries) (settings : Settings)
    (pdf_bytes : bytes) :
  success (_gate1_verify_signature U L settings pdf_bytes) = true ->
  exists sigs name,
    embedded_signatures L pdf_bytes = Returns sigs /\
    signer_name (_gate1_verify_signature U L settings pdf_bytes) = Some name /\
    name <> [] /\
    In name (candidate_signers sigs) /\
    _is_allowed_signer U settings name = true.
Proof.
  unfold _gate1_verify_signature, signature_verdict.
  destruct (embedded_signatures L pdf_bytes) as [[|sig sigs]|e];
    try (intros H; discriminate H).
  destruct (scan_signatures U settings (sig :: sigs) [])
    as [[[name|] found]|e] eqn:Hscan; try (intros H; discriminate H).
  destruct (truthy name) eqn:Ht; [|intros H; discriminate H].
  intros _. exists (sig :: sigs), name.
  apply truthy_nonempty in Ht.
  destruct (scan_found_is_candidate U settings _ _ Hscan) as [Hin Hok].
  repeat split; auto.
Qed.

Lemma gate1_accepts_only_allowed_witness :
  exists sigs name,
    embedded_signatures complete_declaration (u "pdf-1") = Returns sigs /\
    signer_name (_gate1_verify_signature basic complete_declaration default_settings
                   (u "pdf-1")) = Some name /\
    name <> [] /\
    In name (candidate_signers sigs) /\
    _is_allowed_signer basic default_settings name = true.
Proof.
  apply (@gate1_accepts_only_allowed basic complete_declaration default_settings
           (u "pdf-1")).
  reflexivity.
Defined.

(** X10.  The empty signer name.  Because the test is symmetric, a name
    that comes out empty passes it as soon as the allow-list is not empty
    (the empty string is a substring of every fragment).  The loop stops
    there, and the gate, which takes the empty name for no name, rejects
    with UNKNOWN_SIGNER without looking at the signatures that follow. *)
Theorem gate1_empty_name_ends_scan (U : unicode) (L : libraries) (settings : Settings)
    (pdf_bytes : bytes) (before after : list signature) (cert : certificate) :
  upper U [] = [] ->
  ALLOWED_SIGNERS settings <> [] ->
  embedded_signatures L pdf_bytes
  = Returns (before ++ Status true true (Some cert) :: after) ->
  existsb raises_other before = false ->
  forallb (fun name => negb (_is_allowed_signer U settings name))
    (candidate_signers before) = true ->
  _extract_signer_name cert = [] ->
  _is_allowed_signer U settings [] = true /\
  _gate1_verify_signature U L settings pdf_bytes
  = rejected UNKNOWN_SIGNER (unknown_signer_message (candidate_signers before ++ [[]])).
Proof.
  intros Hup Hlist E Hex Hall Hname.
  assert (Hok : _is_allowed_signer U settings [] = true).
  { unfold _is_allowed_signer. rewrite Hup.
    destruct (ALLOWED_SIGNERS settings) as [|a rest]; [contradiction|].
    cbn [existsb].
    assert (Hnil : contains [] (upper U a) = true) by (destruct (upper U a); reflexivity).
    rewrite Hnil, orb_true_r. reflexivity. }
  split; [exact Hok|].
  assert (Hsigs : before ++ Status true true (Some cert) :: after <> [])
    by (destruct before; discriminate).
  rewrite (@gate1_of_signatures U L settings _ _ E Hsigs).
  rewrite scan_stops_at_allowed by (try assumption; rewrite Hname; exact Hok).
  rewrite Hname. reflexivity.
Qed.

Lemma gate1_empty_name_ends_scan_witness :
  _is_allowed_signer basic default_settings [] = true /\
  _gate1_verify_signature basic
    (reader_of
       [Status true true
          (Some {| cert_type := u "Certificate"; human_friendly := Some [];
                   subject := None; has_public_bytes := false; cert_str := [] |});
        Status true true (Some apostille_cert)] [])
    default_settings []
  = rejected UNKNOWN_SIGNER (unknown_signer_message (candidate_signers [] ++ [[]])).
Proof.
  apply (@gate1_empty_name_ends_scan basic
           (reader_of
              [Status true true
                 (Some {| cert_type := u "Certificate"; human_friendly := Some [];
                          subject := None; has_public_bytes := false; cert_str := [] |});
               Status true true (Some apostille_cert)] [])
           default_settings [] [] [Status true true (Some apostille_cert)]
           {| cert_type := u "Certificate"; human_friendly := Some [];
              subject := None; has_public_bytes := false; cert_str := [] |});
    try reflexivity.
  discriminate.
Defined.

(* ------------------------------------------------------------------ *)
(** * The text of the document *)
(* ------------------------------------------------------------------ *)

Lemma Substring_refl (s : pystr) : Substring s s.
Proof. exists [], []. rewrite app_nil_r. reflexivity. Qed.

Lemma Substring_nil (s : pystr) : Substring [] s.
Proof. exists [], s. reflexivity. Qed.

Lemma Substring_trans (a b c : pystr) :
  Substring a b -> Substring b c -> Substring a c.
Proof.
  intros (p1 & q1 & ->) (p2 & q2 & ->).
  exists (p2 ++ p1), (q1 ++ q2). rewrite <- !app_assoc. reflexivity.
Qed.

Lemma Substring_nonempty (a b : pystr) : Substring a b -> a <> [] -> b <> [].
Proof.
  intros (p & q & ->) Ha Hb.
  apply app_eq_nil in Hb as [_ Hb]. apply app_eq_nil in Hb as [Hb _]. auto.
Qed.

Lemma filter_all_empty (pages : list pystr) :
  forallb (fun p => negb (truthy p)) pages = true -> filter truthy pages = [].
Proof.
  intros H. apply filter_none. intros p Hp.
  rewrite forallb_forall in H. apply H in Hp. apply negb_true_iff in Hp. exact Hp.
Qed.

(** X11.  [_extract_text] keeps every non-empty page text whole: a token
    that occurs within the text of some page occurs in the extracted text,
    so with debug off gate 3 accepts it. *)
Theorem token_on_a_page_is_found (L : libraries) (settings : Settings)
    (pdf_bytes : bytes) (pages : list pystr) (page poll_token : pystr) :
  page_texts L pdf_bytes = Returns pages ->
  In page pages ->
  Substring poll_token page ->
  poll_token <> [] ->
  DEBUG settings = false ->
  exists text,
    _extract_text L pdf_bytes = Returns text /\
    Substring page text /\
    _gate3_verify_token settings text poll_token = accepted (u "Token verified").
Proof.
  intros Hp Hin Hsub Hne Hd.
  unfold _extract_text. rewrite Hp. eexists. split; [reflexivity|].
  assert (Hpage : Substring page (join [NL] (filter truthy pages))).
  { apply substring_of_join. apply filter_In. split; [exact Hin|].
    apply truthy_nonempty. eapply Substring_nonempty; eauto. }
  split; [exact Hpage|].
  unfold _gate3_verify_token.
  apply truthy_nonempty in Hne. rewrite Hne, Hd. cbn [negb].
  assert (Hc : contains poll_token (join [NL] (filter truthy pages)) = true).
  { apply contains_spec. eapply Substring_trans; eauto. }
  rewrite Hc. reflexivity.
Qed.

Lemma token_on_a_page_is_found_witness :
  exists text,
    _extract_text complete_declaration (u "pdf-1") = Returns text /\
    Substring (u "I vote for [Option B] in the Community Poll. Security Token: tok-1")
      text /\
    _gate3_verify_token default_settings text (u "tok-1") = accepted (u "Token verified").
Proof.
  apply (@token_on_a_page_is_found complete_declaration default_settings (u "pdf-1")
           [u "I vote for [Option B] in the Community Poll. Security Token: tok-1";
            u "AFM: 123456789"]).
  - reflexivity.
  - left. reflexivity.
  - exists (u "I vote for [Option B] in the Community Poll. Security Token: "), [].
    reflexivity.
  - discriminate.
  - reflexivity.
Defined.

(** X12.  A document without text.  When no page yields any text the
    extracted text is the empty string; nothing is found in it, neither a
    tax number nor a vote choice; with debug off every token is reported as
    TOKEN_NOT_FOUND; and [validate_identity], once the signature is
    accepted, answers AFM_NOT_FOUND. *)
Theorem document_without_text (U : unicode) (L : libraries) (settings : Settings)
    (pdf_bytes : bytes) (pages : list pystr) :
  page_texts L pdf_bytes = Returns pages ->
  forallb (fun p => negb (truthy p)) pages = true ->
  _extract_text L pdf_bytes = Returns [] /\
  _extract_afm U [] = None /\
  _extract_vote_choice U [] = None /\
  (forall poll_token,
     poll_token <> [] -> DEBUG settings = false ->
     rejection_reason (_gate3_verify_token settings [] poll_token)
     = Some TOKEN_NOT_FOUND) /\
  (success (_gate1_verify_signature U L settings pdf_bytes) = true ->
   validate_identity U L settings pdf_bytes = afm_not_found).
Proof.
  intros Hp Hall.
  assert (Ht : _extract_text L pdf_bytes = Returns []).
  { unfold _extract_text. rewrite Hp, (filter_all_empty _ Hall). reflexivity. }
  split; [exact Ht|].
  split; [reflexivity|]. split; [reflexivity|]. split.
  - intros poll_token Hne Hd. unfold _gate3_verify_token.
    apply truthy_nonempty in Hne. rewrite Hne, Hd. cbn [negb].
    destruct poll_token as [|c t]; [discriminate|]. reflexivity.
  - intros H1. unfold validate_identity. cbv zeta. rewrite H1, Ht. reflexivity.
Qed.

Lemma document_without_text_witness :
  _extract_text (reader_of [Status true true (Some apostille_cert)] [[]; []]) []
  = Returns [] /\
  _extract_afm basic [] = None /\
  _extract_vote_choice basic [] = None /\
  (forall poll_token,
     poll_token <> [] -> DEBUG default_settings = false ->
     rejection_reason (_gate3_verify_token default_settings [] poll_token)
     = Some TOKEN_NOT_FOUND) /\
  (success (_gate1_verify_signature basic
              (reader_of [Status true true (Some apostille_cert)] [[]; []])
              default_settings []) = true ->
   validate_identity basic
     (reader_of [Status true true (Some apostille_cert)] [[]; []]) default_settings []
   = afm_not_found).
Proof.
  apply (@document_without_text basic
           (reader_of [Status true true (Some apostille_cert)] [[]; []])
           default_settings [] [[]; []]); reflexivity.
Defined.

(* ------------------------------------------------------------------ *)
(** * Where a vote choice comes from *)
(* ------------------------------------------------------------------ *)

Lemma forallb_substring (p : char -> bool) (a b : pystr) :
  Substring a b -> forallb p b = true -> forallb p a = true.
Proof.
  intros (pre & post & ->) H. rewrite !forallb_app in H.
  apply andb_prop in H as [_ H]. apply andb_prop in H as [H _]. exact H.
Qed.

Section ChoiceFacts.

Variable U : unicode.

(** Group 1 of a match is a piece of the matched text. *)
Lemma matches_group_substring r : forall w rest g g',
  Matches U r w rest g g' -> g' = g \/ Substring g' w.
Proof.
  induction r as [|c|c|p|r1 IH1 r2 IH2|r1 IH1 r2 IH2|p|p|n p|r1 IH1|];
    intros w rest g g' M; cbn [Matches] in M.
  - left. tauto.
  - left. tauto.
  - destruct M as (x & _ & _ & ->). auto.
  - destruct M as (x & _ & _ & ->). auto.
  - destruct M as (w1 & w2 & g1 & -> & M1 & M2).
    destruct (IH2 _ _ _ _ M2) as [->|(p2 & q2 & E2)].
    + destruct (IH1 _ _ _ _ M1) as [->|(p1 & q1 & E1)]; [auto|].
      right. exists p1, (q1 ++ w2). rewrite E1, <- !app_assoc. reflexivity.
    + right. exists (w1 ++ p2), q2. rewrite E2, <- !app_assoc. reflexivity.
  - destruct M as [M|M]; eauto.
  - left. tauto.
  - left. tauto.
  - left. tauto.
  - right. destruct M as [_ ->]. apply Substring_refl.
  - left. tauto.
Qed.

Lemma search_group_substring r s g :
  search U r s = Some g -> Substring g s.
Proof.
  intros H. destruct (search_some _ _ _ H) as (n & (pre & w & rest & -> & _ & M) & _).
  destruct (matches_group_substring _ _ _ _ _ M) as [->|(p & q & ->)].
  - apply Substring_nil.
  - exists (pre ++ p), (q ++ rest). rewrite <- !app_assoc. reflexivity.
Qed.

Lemma strip_substring s : Substring (strip U s) s.
Proof.
  unfold strip.
  destruct (lstrip_suffix U s) as [pre E].
  destruct (rstrip_prefix U (lstrip U s)) as [post E'].
  exists pre, post. rewrite <- E'. exact E.
Qed.

(** The group of each of the four patterns holds no line break. *)
Lemma bracket_group_one_line phrase w rest g :
  Matches U (Seq (lit phrase) (Seq (Group (StarL any_but_newline)) (Exact RBRACKET)))
    w rest [] g ->
  forallb any_but_newline g = true.
Proof.
  cbn [Matches].
  intros (w1 & w2 & g1 & _ & _ & w3 & w4 & g2 & _ & [[g0 [H _]] ->] & _ & ->).
  exact H.
Qed.

Lemma not_dot_newline_one_line w :
  forallb not_dot_newline w = true -> forallb any_but_newline w = true.
Proof.
  induction w as [|c w IH]; [reflexivity|]. simpl.
  rewrite !andb_true_iff. intros [Hc Hw]. split; [|auto].
  unfold not_dot_newline in Hc. unfold any_but_newline.
  destruct (c =? NL)%N; [|reflexivity].
  rewrite orb_true_r in Hc. discriminate.
Qed.

Lemma alt_group_one_line w rest g :
  Matches U (VOTE_CHOICE_PATTERN_GR_ALT U) w rest [] g ->
  forallb any_but_newline g = true.
Proof.
  unfold VOTE_CHOICE_PATTERN_GR_ALT, PlusG. cbn [Matches].
  intros (w1 & w2 & g1 & _ & _ & w3 & w4 & g2 & _ & _ & [g0 M] & ->).
  destruct M as (a & b & g3 & -> & (x & -> & Hx & _) & (Hb & _)).
  apply not_dot_newline_one_line. simpl. rewrite Hx, Hb. reflexivity.
Qed.

Lemma oti_group_one_line w rest g :
  Matches U VOTE_CHOICE_PATTERN_GR_OTI w rest [] g ->
  forallb any_but_newline g = true.
Proof.
  unfold VOTE_CHOICE_PATTERN_GR_OTI, PlusL, Opt. cbn [Matches].
  intros (w1 & w2 & g1 & _ & _ & w3 & w4 & g2 & _ & _ & w5 & w6 & g3 & _
          & [[g0 M] ->] & M').
  destruct M as (a & b & g4 & -> & (x & -> & Hx & _) & (Hb & _)).
  assert (Hg : forallb any_but_newline ([x] ++ b) = true)
    by (simpl; rewrite Hx, Hb; reflexivity).
  destruct M' as [[_ ->]|(_ & _ & ->)]; exact Hg.
Qed.

Lemma search_one_line r s g :
  (forall w rest g', Matches U r w rest [] g' -> forallb any_but_newline g' = true) ->
  search U r s = Some g -> forallb any_but_newline g = true.
Proof.
  intros Hr H. destruct (search_some _ _ _ H) as (n & (pre & w & rest & _ & _ & M) & _).
  eauto.
Qed.

(** Which strategy a returned choice came from. *)
Lemma extract_vote_choice_origin text v :
  _extract_vote_choice U text = Some v ->
  exists r g,
    In r [VOTE_CHOICE_PATTERN; VOTE_CHOICE_PATTERN_GR;
          VOTE_CHOICE_PATTERN_GR_ALT U; VOTE_CHOICE_PATTERN_GR_OTI] /\
    search U r text = Some g /\ v = strip U g.
Proof.
  unfold _extract_vote_choice. cbv zeta.
  destruct (search U VOTE_CHOICE_PATTERN text) as [g1|] eqn:E1.
  { intros H; inversion H. exists VOTE_CHOICE_PATTERN, g1. simpl. auto. }
  destruct (search U VOTE_CHOICE_PATTERN_GR text) as [g2|] eqn:E2.
  { intros H; inversion H. exists VOTE_CHOICE_PATTERN_GR, g2. simpl. auto. }
  assert (Hoti :
    match search U VOTE_CHOICE_PATTERN_GR_OTI text with
    | Some group1 =>
      if truthy (strip U group1) && Nat.ltb (length (strip U group1)) 200
      then Some (strip U group1) else None
    | None => None
    end = Some v ->
    exists r g,
      In r [VOTE_CHOICE_PATTERN; VOTE_CHOICE_PATTERN_GR;
            VOTE_CHOICE_PATTERN_GR_ALT U; VOTE_CHOICE_PATTERN_GR_OTI] /\
      search U r text = Some g /\ v = strip U g).
  { destruct (search U VOTE_CHOICE_PATTERN_GR_OTI text) as [g4|] eqn:E4;
      [|discriminate].
    destruct (truthy (strip U g4) && _); [|discriminate].
    intros H; inversion H. exists VOTE_CHOICE_PATTERN_GR_OTI, g4. simpl. auto 6. }
  destruct (search U (VOTE_CHOICE_PATTERN_GR_ALT U) text) as [g3|] eqn:E3;
    [|exact Hoti].
  destruct (truthy (strip U g3) && _); [|exact Hoti].
  intros H; inversion H. exists (VOTE_CHOICE_PATTERN_GR_ALT U), g3. simpl. auto 6.
Qed.

End ChoiceFacts.

Lemma extract_vote_choice_from_text_aux (U : unicode) (text v : pystr) :
  _extract_vote_choice U text = Some v ->
  Substring v text /\ forallb any_but_newline v = true.
Proof.
  intros H.
  destruct (extract_vote_choice_origin U text H) as (r & g & Hr & Hs & ->).
  pose proof (search_group_substring U _ _ Hs) as Hg.
  split; [eapply Substring_trans; [apply strip_substring | exact Hg]|].
  apply (forallb_substring any_but_newline (strip_substring U g)).
  cbn [In] in Hr. destruct Hr as [<-|[<-|[<-|[<-|[]]]]].
  - eapply search_one_line; [|exact Hs]. apply bracket_group_one_line.
  - eapply search_one_line; [|exact Hs]. apply bracket_group_one_line.
  - eapply search_one_line; [|exact Hs]. apply alt_group_one_line.
  - eapply search_one_line; [|exact Hs]. apply oti_group_one_line.
Qed.

(** X13.  A vote choice is never made up: whatever [_extract_vote_choice]
    returns is a contiguous piece of the text it was given, and it lies on a
    single line (it holds no newline character). *)
Theorem extract_vote_choice_from_text (U : unicode) (text v : pystr) :
  _extract_vote_choice U text = Some v ->
  Substring v text /\ forallb any_but_newline v = true.
Proof.
  intros H. destruct (extract_vote_choice_from_text_aux U text H) as [Hs Hl].
  split; [exact Hs | exact Hl].
Qed.

Lemma extract_vote_choice_from_text_witness :
  Substring (u "Option A") (u "I vote for [Option A] in this election") /\
  forallb any_but_newline (u "Option A") = true.
Proof.
  exact (@extract_vote_choice_from_text basic
           (u "I vote for [Option A] in this election") (u "Option A") eq_refl).
Defined.

Section BracketFacts.

Variable U : unicode.

Lemma lit_rmatch_spelled pat : forall w s g k,
  spelled U pat w -> rmatch U (lit pat) (w ++ s) g k = k s g.
Proof.
  unfold lit, spelled.
  induction pat as [|p pat IH]; intros w s g k H; inversion H as [|p' x pat' w' Hx Hw];
    subst; [reflexivity|].
  cbn [word app]. destruct (cased p); cbn [rmatch].
  - rewrite Hx. apply IH. exact Hw.
  - subst x. rewrite N.eqb_refl. apply IH. exact Hw.
Qed.

(** The lazy star in front of the closing bracket stops at the first one. *)
Lemma star_lazy_to_bracket post inner : forall done,
  forallb (fun c => any_but_newline c && negb (c =? RBRACKET)%N) inner = true ->
  star_lazy any_but_newline (inner ++ RBRACKET :: post)
    (fun s' =>
       match s' with
       | x :: s'' =>
         if (x =? RBRACKET)%N
         then Some (firstn (length (done ++ inner ++ RBRACKET :: post) - length s')
                      (done ++ inner ++ RBRACKET :: post))
         else None
       | [] => None
       end)
  = Some (done ++ inner).
Proof.
  induction inner as [|c inner IH]; intros done H.
  - cbn [app star_lazy]. rewrite N.eqb_refl.
    rewrite firstn_consumed, app_nil_r. reflexivity.
  - cbn [forallb] in H. apply andb_prop in H as [Hc H].
    apply andb_prop in Hc as [Hnl Hbr]. apply negb_true_iff in Hbr.
    cbn [app star_lazy]. rewrite Hbr, Hnl.
    specialize (IH (done ++ [c]) H).
    rewrite <- !app_assoc in IH. cbn [app] in IH. exact IH.
Qed.

End BracketFacts.

(** X14.  The English bracketed strategy reads up to the first closing
    bracket.  For a text that begins with the phrase "vote for [" in any
    letter case, followed by characters that are neither a closing bracket
    nor a newline and then a closing bracket, the choice returned is that
    run of characters, stripped; what follows the bracket plays no part,
    and an empty or blank run gives the empty string. *)
Theorem english_bracket_choice (U : unicode) (phrase inner post : pystr) :
  spelled U L_VOTE_FOR phrase ->
  forallb (fun c => any_but_newline c && negb (c =? RBRACKET)%N) inner = true ->
  _extract_vote_choice U (phrase ++ inner ++ RBRACKET :: post) = Some (strip U inner).
Proof.
  intros Hp Hin.
  assert (Hs : search U VOTE_CHOICE_PATTERN (phrase ++ inner ++ RBRACKET :: post)
               = Some inner).
  { apply search_at_head. unfold VOTE_CHOICE_PATTERN. cbn [rmatch].
    rewrite lit_rmatch_spelled by exact Hp.
    exact (star_lazy_to_bracket post inner [] Hin). }
  unfold _extract_vote_choice. rewrite Hs. reflexivity.
Qed.

Lemma english_bracket_choice_witness :
  _extract_vote_choice basic
    (u "VOTE For [" ++ u "  A [nested" ++ RBRACKET :: u " or not]")
  = Some (strip basic (u "  A [nested")).
Proof.
  apply (@english_bracket_choice basic (u "VOTE For [") (u "  A [nested")
           (u " or not]")).
  - vm_compute. repeat constructor.
  - reflexivity.
Defined.

(* ------------------------------------------------------------------ *)
(** * The pipeline as a whole *)
(* ------------------------------------------------------------------ *)

(** X17.  Debug mode unbinds the session.  With [DEBUG] on, the token
    plays no part beyond being non-empty: two runs of [validate] that
    differ only in their (non-empty) tokens return the same result and
    leave the same session. *)
Theorem validate_debug_ignores_token (U : unicode) (L : libraries)
    (settings : Settings) (utcnow : N) (pdf_bytes : bytes)
    (poll_id token1 token2 : pystr) (db : Session) :
  DEBUG settings = true ->
  token1 <> [] -> token2 <> [] ->
  validate U L settings utcnow pdf_bytes poll_id token1 db
  = validate U L settings utcnow pdf_bytes poll_id token2 db.
Proof.
  intros Hd H1 H2.
  assert (Hg : forall text,
    _gate3_verify_token settings text token1
    = _gate3_verify_token settings text token2).
  { intros text. unfold _gate3_verify_token.
    apply truthy_nonempty in H1. apply truthy_nonempty in H2.
    rewrite H1, H2, Hd. reflexivity. }
  unfold validate. cbv zeta.
  destruct (negb (success (_gate1_verify_signature U L settings pdf_bytes)));
    [reflexivity|].
  destruct (_extract_text L pdf_bytes) as [text|e]; [|reflexivity].
  rewrite Hg. reflexivity.
Qed.

Lemma validate_debug_ignores_token_witness :
  validate basic complete_declaration
    {| SALT_KEY := SALT_KEY default_settings;
       ALLOWED_SIGNERS := ALLOWED_SIGNERS default_settings;
       DEBUG := true; ALLOW_VOTE_UPDATE := false |}
    7 (u "pdf-1") (u "poll-1") (u "tok-1") (open_session [] 1)
  = validate basic complete_declaration
      {| SALT_KEY := SALT_KEY default_settings;
         ALLOWED_SIGNERS := ALLOWED_SIGNERS default_settings;
         DEBUG := true; ALLOW_VOTE_UPDATE := false |}
      7 (u "pdf-1") (u "poll-1") (u "some other token") (open_session [] 1).
Proof.
  apply (@validate_debug_ignores_token basic complete_declaration
           {| SALT_KEY := SALT_KEY default_settings;
              ALLOWED_SIGNERS := ALLOWED_SIGNERS default_settings;
              DEBUG := true; ALLOW_VOTE_UPDATE := false |}
           7 (u "pdf-1") (u "poll-1") (u "tok-1") (u "some other token")
           (open_session [] 1)); [reflexivity | discriminate | discriminate].
Defined.

(** X18.  What an acceptance rests on.  With debug off, when [validate]
    accepts, the document has a text in which the token of the call occurs
    verbatim, in which a label is followed by the nine digits whose salted
    hash is the voter hash returned, and of which the non-empty choice
    returned is a piece; the signature gate had accepted, and no row held
    the file hash. *)
Theorem validate_acceptance_evidence (U : unicode) (L : libraries)
    (settings : Settings) (utcnow : N) (pdf_bytes : bytes)
    (poll_id poll_token : pystr) (table : list Vote.t) (key : N)
    (r : ValidationResult) (db' : Session) :
  DEBUG settings = false ->
  validate U L settings utcnow pdf_bytes poll_id poll_token (open_session table key)
  = (Returns r, db') ->
  success r = true ->
  exists text afm n choice,
    _extract_text L pdf_bytes = Returns text /\
    poll_token <> [] /\ Substring poll_token text /\
    afm_at U text n afm /\ voter_hash r = Some (_hash_voter_id L settings afm) /\
    vote_choice r = Some choice /\ choice <> [] /\ Substring choice text /\
    success (_gate1_verify_signature U L settings pdf_bytes) = true /\
    ~ In (_calculate_file_hash L pdf_bytes) (map Vote.file_hash table).
Proof.
  intros Hd E Hs.
  destruct (@validate_accepts U L settings _ _ _ _ _ _ _ _ E Hs)
    as (text & afm & choice & table' & H1 & Hq & Ht & H3 & Ha & Hne & Hc & Hcne
        & _ & Hr & _).
  assert (Hocc : exists n, afm_at U text n afm).
  { rewrite extract_afm_search in Ha.
    destruct (search_some _ _ _ Ha) as (n & Ho & _).
    exists n. apply afm_occurs. exact Ho. }
  destruct Hocc as [n Hn].
  exists text, afm, n, choice.
  assert (Htok : poll_token <> [] /\ Substring poll_token text).
  { unfold _gate3_verify_token in H3. rewrite Hd in H3.
    destruct (truthy poll_token) eqn:Htr; cbn [negb] in H3; [|discriminate].
    apply truthy_nonempty in Htr.
    destruct (contains poll_token text) eqn:Hin; cbn [negb] in H3; [|discriminate].
    apply contains_spec in Hin. auto. }
  destruct Htok as [Htne Htsub].
  subst r. cbn [voter_hash vote_choice].
  repeat (split; [first [assumption | reflexivity]|]).
  split; [exact (proj1 (@extract_vote_choice_from_text_aux U text choice Hc))|].
  split; [exact H1|].
  apply existsb_file_hash_false. apply find_none_existsb. exact Hq.
Qed.

Lemma validate_acceptance_evidence_witness :
  exists text afm n choice,
    _extract_text complete_declaration (u "pdf-1") = Returns text /\
    u "tok-1" <> [] /\ Substring (u "tok-1") text /\
    afm_at basic text n afm /\
    voter_hash sample_result = Some (_hash_voter_id complete_declaration default_settings afm) /\
    vote_choice sample_result = Some choice /\ choice <> [] /\ Substring choice text /\
    success (_gate1_verify_signature basic complete_declaration default_settings
               (u "pdf-1")) = true /\
    ~ In (_calculate_file_hash complete_declaration (u "pdf-1")) (map Vote.file_hash []).
Proof.
  apply (@validate_acceptance_evidence basic complete_declaration default_settings 7
           (u "pdf-1") (u "poll-1") (u "tok-1") [] 1 sample_result
           (open_session [sample_row] 2)); vm_compute; reflexivity.
Defined.

(** X19.  The unique index is never hit in a sequential run.  On a session
    with nothing pending [validate] always returns a result: the insert of
    [_record_vote] cannot raise, because gate 2 found no row with the file
    hash and nothing has added one since, and the column of the voter hash
    is never left empty. *)
Theorem validate_never_raises (U : unicode) (L : libraries) (settings : Settings)
    (utcnow : N) (pdf_bytes : bytes) (poll_id poll_token : pystr)
    (table : list Vote.t) (key : N) :
  exists r db',
    validate U L settings utcnow pdf_bytes poll_id poll_token (open_session table key)
    = (Returns r, db') /\
    pending_new db' = [] /\ pending_deleted db' = [].
Proof.
  destruct (validate_returns_same U L settings pdf_bytes poll_id poll_token table)
    as [r Hr].
  destruct (Hr utcnow key) as [db' E]. exists r, db'. split; [exact E|].
  destruct (success r) eqn:Hs.
  - destruct (@validate_accepts U L settings _ _ _ _ _ _ _ _ E Hs)
      as (text & afm & choice & table' & _ & _ & _ & _ & _ & _ & _ & _ & _ & _ & ->).
    split; reflexivity.
  - destruct (@validate_rejects U L settings _ _ _ _ _ _ _ _ E Hs)
      as [->|[_ (existing & _ & ->)]]; split; reflexivity.
Qed.
